(** * DocumentMapper: positions and ranges between a generated and an original document

    A shallow embedding of
    [packages/language-server/src/lib/documents/DocumentMapper.ts]:
    the three mappers ([IdentityMapper], [FragmentMapper],
    [SourceMapDocumentMapper]) and the remapping functions built on them.

    Conventions of the embedding.
    - JavaScript numbers that hold lines, characters and offsets are [Z].
    - An optional field ([x?: T]) and a nullable value ([T | null]) are
      [option T]; any object is truthy, so [if (x)] on such a field tests
      for [Some].
    - The language-server-protocol shapes ([Position], [Range], [TextEdit],
      ...) are records with the fields the protocol declares; an object
      spread [{...x, range: r}] is the record with that one field replaced.
    - A call that throws yields [Throws]; a call that returns yields
      [Returns]. *)

From Stdlib Require Import ZArith Ascii String List Bool QArith Lia.
Import ListNotations.
Local Open Scope Z_scope.

(** ** Protocol data *)

Module Position.
Record t : Type := create { line : Z; character : Z }.
End Position.

Module Range.
  (** [Range.create(start, end)] builds [{ start, end }]. *)
Record t : Type := create { start : Position.t; end_ : Position.t }.
End Range.

Module TextEdit.
Record t : Type := mk { range : Range.t; newText : string }.
  (** [{ ...edit, range: r }] *)
Definition with_range (edit : t) (r : Range.t) : t :=
    {| range := r; newText := newText edit |}.
End TextEdit.

Module Location.
Record t : Type := mk { uri : string; range : Range.t }.
Definition with_range (loc : t) (r : Range.t) : t :=
    {| uri := uri loc; range := r |}.
End Location.

(** A payload the protocol leaves open ([any], markup, command arguments);
    the mappers never look inside. *)
Definition LSPAny : Type := string.

Module Command.
Record t : Type := mk { title : string; command : string; arguments : option (list LSPAny) }.
End Command.

Module CompletionItem.
Record t : Type := mk {
    label : string;
    kind : option Z;
    detail : option string;
    documentation : option LSPAny;
    sortText : option string;
    filterText : option string;
    insertText : option string;
    textEdit : option TextEdit.t;
    additionalTextEdits : option (list TextEdit.t);
    commitCharacters : option (list string);
    command : option Command.t;
    data : option LSPAny }.
Definition with_textEdit (item : t) (e : TextEdit.t) : t :=
    {| label := label item; kind := kind item; detail := detail item;
       documentation := documentation item; sortText := sortText item;
       filterText := filterText item; insertText := insertText item;
       textEdit := Some e;
       additionalTextEdits := additionalTextEdits item;
       commitCharacters := commitCharacters item;
       command := command item; data := data item |}.
End CompletionItem.

Module Hover.
Record t : Type := mk { contents : LSPAny; range : option Range.t }.
Definition with_range (hover : t) (r : Range.t) : t :=
    {| contents := contents hover; range := Some r |}.
End Hover.

Module DiagnosticRelatedInformation.
Record t : Type := mk { location : Location.t; message : string }.
End DiagnosticRelatedInformation.

Module Diagnostic.
Record t : Type := mk {
    range : Range.t;
    severity : option Z;
    code : option (Z + string);
    source : option string;
    message : string;
    tags : option (list Z);
    relatedInformation : option (list DiagnosticRelatedInformation.t);
    data : option LSPAny }.
Definition with_range (d : t) (r : Range.t) : t :=
    {| range := r; severity := severity d; code := code d; source := source d;
       message := message d; tags := tags d;
       relatedInformation := relatedInformation d; data := data d |}.
End Diagnostic.

Module Color.
Record t : Type := mk { red : Q; green : Q; blue : Q; alpha : Q }.
End Color.

Module ColorInformation.
Record t : Type := mk { range : Range.t; color : Color.t }.
Definition with_range (info : t) (r : Range.t) : t :=
    {| range := r; color := color info |}.
End ColorInformation.

Module ColorPresentation.
Record t : Type := mk {
    label : string;
    textEdit : option TextEdit.t;
    additionalTextEdits : option (list TextEdit.t) }.
End ColorPresentation.

Module SymbolInformation.
Record t : Type := mk {
    name : string;
    kind : Z;
    tags : option (list Z);
    deprecated : option bool;
    location : Location.t;
    containerName : option string }.
Definition with_location (info : t) (l : Location.t) : t :=
    {| name := name info; kind := kind info; tags := tags info;
       deprecated := deprecated info; location := l;
       containerName := containerName info |}.
End SymbolInformation.

Module LocationLink.
  (** [LocationLink.create(targetUri, targetRange, targetSelectionRange,
      originSelectionRange)] builds the object with these four fields. *)
Record t : Type := create {
    targetUri : string;
    targetRange : Range.t;
    targetSelectionRange : Range.t;
    originSelectionRange : option Range.t }.
End LocationLink.

Module TextDocumentIdentifier.
  (** [OptionalVersionedTextDocumentIdentifier] *)
Record t : Type := mk { uri : string; version : option Z }.
End TextDocumentIdentifier.

Module TextDocumentEdit.
  (** [TextDocumentEdit.create(textDocument, edits)] builds
      [{ textDocument, edits }]. *)
Record t : Type := create {
    textDocument : TextDocumentIdentifier.t;
    edits : list TextEdit.t }.
End TextDocumentEdit.

(** The members of [WorkspaceEdit.documentChanges]: a text-document edit or
    a resource operation ([CreateFile], [RenameFile], [DeleteFile]), which
    has a [kind] and no [textDocument]. *)
Inductive ResourceOperation : Type :=
| CreateFile (uri : string)
| RenameFile (oldUri newUri : string)
| DeleteFile (uri : string).

Inductive DocumentChange : Type :=
| ChangeTextDocument (edit : TextDocumentEdit.t)
| ChangeResource (op : ResourceOperation).

Module WorkspaceEdit.
Record t : Type := mk {
    changes : option (list (string * list TextEdit.t));
    documentChanges : option (list DocumentChange) }.
End WorkspaceEdit.

Module CodeAction.
Record t : Type := mk {
    title : string;
    kind : option string;
    diagnostics : option (list Diagnostic.t);
    isPreferred : option bool;
    edit : option WorkspaceEdit.t;
    command : option Command.t;
    data : option LSPAny }.
  (** [CodeAction.create(title, edit, kind)] with an [edit] that is neither
      a string nor a [Command]: starts from [{ title }], sets [edit], and
      sets [kind] when it is not [undefined]. *)
Definition create (title : string) (edit : WorkspaceEdit.t) (kind : option string) : t :=
    {| title := title; kind := kind; diagnostics := None; isPreferred := None;
       edit := Some edit; command := None; data := None |}.
End CodeAction.

(** ** Results of calls that may throw *)

Inductive JSError : Type := TypeError.

Inductive completion (A : Type) : Type :=
| Returns (a : A)
| Throws (e : JSError).
Arguments Returns {A} a.
Arguments Throws {A} e.

Definition bind_completion {A B : Type} (c : completion A) (f : A -> completion B) : completion B :=
  match c with
  | Returns a => f a
  | Throws e => Throws e
  end.

(** [xs.map(f)] with a callback that may throw: the first throw ends the call. *)
Fixpoint array_map_throwing {A B : Type} (f : A -> completion B) (xs : list A) : completion (list B) :=
  match xs with
  | [] => Returns []
  | x :: rest =>
      bind_completion (f x) (fun y =>
      bind_completion (array_map_throwing f rest) (fun ys =>
      Returns (y :: ys)))
  end.

(** ** The mapper interface *)

(** [interface DocumentMapper]; the optional [destroy] carries no result and
    is left out. *)
Record DocumentMapper : Type := {
  getOriginalPosition : Position.t -> Position.t;
  getGeneratedPosition : Position.t -> Position.t;
  isInGenerated : Position.t -> bool;
  getURL : string }.

(** ** IdentityMapper *)

Module IdentityMapper.
Definition getOriginalPosition (generatedPosition : Position.t) : Position.t :=
    generatedPosition.
Definition getGeneratedPosition (originalPosition : Position.t) : Position.t :=
    originalPosition.
Definition isInGenerated (_ : Position.t) : bool := true.

Definition new (url : string) : DocumentMapper :=
    Build_DocumentMapper getOriginalPosition getGeneratedPosition isInGenerated url.
End IdentityMapper.

(** ** FragmentMapper *)

Module TagInformation.
Record t : Type := mk { content : string; start : Z; end_ : Z }.
End TagInformation.

Module FragmentMapper.
Section WithTextUtilities.
  (** [offsetAt] and [positionAt] come from [./utils]; the mapper only
      calls them. *)
Variable offsetAt : Position.t -> string -> Z.
Variable positionAt : Z -> string -> Position.t.

Variable originalText : string.
Variable tagInfo : TagInformation.t.
Variable url : string.

Definition offsetInParent (offset : Z) : Z :=
    TagInformation.start tagInfo + offset.

Definition getOriginalPosition (generatedPosition : Position.t) : Position.t :=
    let parentOffset :=
      offsetInParent (offsetAt generatedPosition (TagInformation.content tagInfo)) in
    positionAt parentOffset originalText.

Definition getGeneratedPosition (originalPosition : Position.t) : Position.t :=
    let fragmentOffset :=
      offsetAt originalPosition originalText - TagInformation.start tagInfo in
    positionAt fragmentOffset (TagInformation.content tagInfo).

Definition isInGenerated (pos : Position.t) : bool :=
    let offset := offsetAt pos originalText in
    (offset >=? TagInformation.start tagInfo) && (offset <=? TagInformation.end_ tagInfo).

Definition new : DocumentMapper :=
    Build_DocumentMapper getOriginalPosition getGeneratedPosition isInGenerated url.
End WithTextUtilities.
End FragmentMapper.


(** ** The source-map consumer

    [SourceMapDocumentMapper] holds a [SourceMapConsumer] of the
    [source-map] package and asks it for positions.  A consumer answers a
    query with an object or with nothing; of the object the mapper reads
    [line] and [column], each a number or [null]. *)

Module FindPosition.
(** Argument of [originalPositionFor]: [{ line, column }]. *)
Record t : Type := mk { line : Z; column : Z }.
End FindPosition.

Module SourceFindPosition.
(** Argument of [generatedPositionFor]: [{ line, column, source }]. *)
Record t : Type := mk { line : Z; column : Z; source : string }.
End SourceFindPosition.

Module MappedPosition.
Record t : Type := mk { line : option Z; column : option Z }.
End MappedPosition.

Record SourceMapConsumer : Type := {
  originalPositionFor : FindPosition.t -> option MappedPosition.t;
  generatedPositionFor : SourceFindPosition.t -> option MappedPosition.t }.

(** What a mapper method does to the outside: the two consumer queries and
    the [Logger.log] call of [getOriginalPosition]. *)
Inductive Effect : Type :=
| OriginalPositionFor (query : FindPosition.t)
| GeneratedPositionFor (query : SourceFindPosition.t)
| LoggerLog (generatedPosition : Position.t) (column : option Z).

(** A method body as the calls it makes, each continued with the answer. *)
Inductive Backend (A : Type) : Type :=
| Done (a : A)
| AskOriginal (query : FindPosition.t) (k : option MappedPosition.t -> Backend A)
| AskGenerated (query : SourceFindPosition.t) (k : option MappedPosition.t -> Backend A)
| Log (generatedPosition : Position.t) (column : option Z) (k : Backend A).
Arguments Done {A} a.
Arguments AskOriginal {A} query k.
Arguments AskGenerated {A} query k.
Arguments Log {A} generatedPosition column k.

Fixpoint bind_backend {A B : Type} (m : Backend A) (f : A -> Backend B) : Backend B :=
  match m with
  | Done a => f a
  | AskOriginal q k => AskOriginal q (fun r => bind_backend (k r) f)
  | AskGenerated q k => AskGenerated q (fun r => bind_backend (k r) f)
  | Log p c k => Log p c (bind_backend k f)
  end.

(** Running a method body against a consumer: the value it returns and the
    calls it made, in order. *)
Fixpoint run {A : Type} (consumer : SourceMapConsumer) (m : Backend A) : A * list Effect :=
  match m with
  | Done a => (a, [])
  | AskOriginal q k =>
      let '(a, calls) := run consumer (k (originalPositionFor consumer q)) in
      (a, OriginalPositionFor q :: calls)
  | AskGenerated q k =>
      let '(a, calls) := run consumer (k (generatedPositionFor consumer q)) in
      (a, GeneratedPositionFor q :: calls)
  | Log p c k =>
      let '(a, calls) := run consumer k in
      (a, LoggerLog p c :: calls)
  end.

Definition result {A : Type} (consumer : SourceMapConsumer) (m : Backend A) : A :=
  fst (run consumer m).

Definition effects {A : Type} (consumer : SourceMapConsumer) (m : Backend A) : list Effect :=
  snd (run consumer m).

(** [x || 0] on a number or [null]: [null] and [0] are falsy. *)
Definition or_zero (x : option Z) : Z :=
  match x with
  | Some v => if v =? 0 then 0 else v
  | None => 0
  end.

(** [x === 0] on a number or [null]. *)
Definition is_zero (x : option Z) : bool :=
  match x with
  | Some v => v =? 0
  | None => false
  end.

(** ** SourceMapDocumentMapper *)

Module SourceMapDocumentMapper.
Section WithSource.
Variable sourceUri : string.

Definition getOriginalPosition_body (generatedPosition : Position.t) : Backend Position.t :=
  AskOriginal
    {| FindPosition.line := Position.line generatedPosition + 1;
       FindPosition.column := Position.character generatedPosition |}
    (fun mapped =>
       match mapped with
       | None => Done {| Position.line := -1; Position.character := -1 |}
       | Some mapped =>
           let answer :=
             Done {| Position.line := or_zero (MappedPosition.line mapped) - 1;
                     Position.character := or_zero (MappedPosition.column mapped) |} in
           if is_zero (MappedPosition.line mapped)
           then Log generatedPosition (MappedPosition.column mapped) answer
           else answer
       end).

Definition getGeneratedPosition_body (originalPosition : Position.t) : Backend Position.t :=
  AskGenerated
    {| SourceFindPosition.line := Position.line originalPosition + 1;
       SourceFindPosition.column := Position.character originalPosition;
       SourceFindPosition.source := sourceUri |}
    (fun mapped =>
       match mapped with
       | None => Done {| Position.line := -1; Position.character := -1 |}
       | Some mapped =>
           let result :=
             {| Position.line := or_zero (MappedPosition.line mapped) - 1;
                Position.character := or_zero (MappedPosition.column mapped) |} in
           if Position.line result <? 0 then Done result else Done result
       end).

Definition isInGenerated_body (position : Position.t) : Backend bool :=
  bind_backend (getGeneratedPosition_body position) (fun generated =>
  Done (Position.line generated >=? 0)).

Variable consumer : SourceMapConsumer.

Definition getOriginalPosition (generatedPosition : Position.t) : Position.t :=
  result consumer (getOriginalPosition_body generatedPosition).

Definition getGeneratedPosition (originalPosition : Position.t) : Position.t :=
  result consumer (getGeneratedPosition_body originalPosition).

Definition isInGenerated (position : Position.t) : bool :=
  result consumer (isInGenerated_body position).

Definition new : DocumentMapper :=
  Build_DocumentMapper getOriginalPosition getGeneratedPosition isInGenerated sourceUri.
End WithSource.
End SourceMapDocumentMapper.

(** ** Remapping functions *)

Definition mapRangeToOriginal (fragment : DocumentMapper) (range : Range.t) : Range.t :=
  Range.create
    (getOriginalPosition fragment (Range.start range))
    (getOriginalPosition fragment (Range.end_ range)).

Definition mapRangeToGenerated (fragment : DocumentMapper) (range : Range.t) : Range.t :=
  Range.create
    (getGeneratedPosition fragment (Range.start range))
    (getGeneratedPosition fragment (Range.end_ range)).

Definition mapTextEditToOriginal (fragment : DocumentMapper) (edit : TextEdit.t) : TextEdit.t :=
  TextEdit.with_range edit (mapRangeToOriginal fragment (TextEdit.range edit)).

Definition mapLocationToOriginal (fragment : DocumentMapper) (loc : Location.t) : Location.t :=
  Location.with_range loc (mapRangeToOriginal fragment (Location.range loc)).

Definition mapCompletionItemToOriginal (fragment : DocumentMapper) (item : CompletionItem.t)
  : CompletionItem.t :=
  match CompletionItem.textEdit item with
  | None => item
  | Some textEdit =>
      CompletionItem.with_textEdit item (mapTextEditToOriginal fragment textEdit)
  end.

Definition mapHoverToParent (fragment : DocumentMapper) (hover : Hover.t) : Hover.t :=
  match Hover.range hover with
  | None => hover
  | Some range => Hover.with_range hover (mapRangeToOriginal fragment range)
  end.

Definition mapDiagnosticToOriginal (fragment : DocumentMapper) (diagnostic : Diagnostic.t)
  : Diagnostic.t :=
  Diagnostic.with_range diagnostic (mapRangeToOriginal fragment (Diagnostic.range diagnostic)).

Definition mapDiagnosticToGenerated (fragment : DocumentMapper) (diagnostic : Diagnostic.t)
  : Diagnostic.t :=
  Diagnostic.with_range diagnostic (mapRangeToGenerated fragment (Diagnostic.range diagnostic)).

Definition mapColorInformationToOriginal (fragment : DocumentMapper) (info : ColorInformation.t)
  : ColorInformation.t :=
  ColorInformation.with_range info (mapRangeToOriginal fragment (ColorInformation.range info)).

Definition mapColorPresentationToOriginal (fragment : DocumentMapper)
    (presentation : ColorPresentation.t) : ColorPresentation.t :=
  let item := presentation in
  let item :=
    match ColorPresentation.textEdit item with
    | Some textEdit =>
        {| ColorPresentation.label := ColorPresentation.label item;
           ColorPresentation.textEdit := Some (mapTextEditToOriginal fragment textEdit);
           ColorPresentation.additionalTextEdits := ColorPresentation.additionalTextEdits item |}
    | None => item
    end in
  let item :=
    match ColorPresentation.additionalTextEdits item with
    | Some additionalTextEdits =>
        {| ColorPresentation.label := ColorPresentation.label item;
           ColorPresentation.textEdit := ColorPresentation.textEdit item;
           ColorPresentation.additionalTextEdits :=
             Some (map (fun edit => mapTextEditToOriginal fragment edit) additionalTextEdits) |}
    | None => item
    end in
  item.

Definition mapSymbolInformationToOriginal (fragment : DocumentMapper) (info : SymbolInformation.t)
  : SymbolInformation.t :=
  SymbolInformation.with_location info
    (mapLocationToOriginal fragment (SymbolInformation.location info)).

Definition mapLocationLinkToOriginal (fragment : DocumentMapper) (def : LocationLink.t)
  : LocationLink.t :=
  LocationLink.create
    (LocationLink.targetUri def)
    (if String.eqb (getURL fragment) (LocationLink.targetUri def)
     then mapRangeToOriginal fragment (LocationLink.targetRange def)
     else LocationLink.targetRange def)
    (if String.eqb (getURL fragment) (LocationLink.targetUri def)
     then mapRangeToOriginal fragment (LocationLink.targetSelectionRange def)
     else LocationLink.targetSelectionRange def)
    (match LocationLink.originSelectionRange def with
     | Some originSelectionRange => Some (mapRangeToOriginal fragment originSelectionRange)
     | None => None
     end).

Definition mapTextDocumentEditToOriginal (fragment : DocumentMapper) (edit : TextDocumentEdit.t)
  : TextDocumentEdit.t :=
  if negb (String.eqb (TextDocumentIdentifier.uri (TextDocumentEdit.textDocument edit))
                      (getURL fragment))
  then edit
  else
    TextDocumentEdit.create
      (TextDocumentEdit.textDocument edit)
      (map (fun textEdit => mapTextEditToOriginal fragment textEdit)
           (TextDocumentEdit.edits edit)).

(** [mapTextDocumentEditToOriginal(fragment, edit as TextDocumentEdit)] on a
    member of [documentChanges]: a resource operation has no
    [textDocument], so reading [edit.textDocument.uri] throws. *)
Definition mapDocumentChangeToOriginal (fragment : DocumentMapper) (change : DocumentChange)
  : completion TextDocumentEdit.t :=
  match change with
  | ChangeTextDocument edit => Returns (mapTextDocumentEditToOriginal fragment edit)
  | ChangeResource _ => Throws TypeError
  end.

(** [codeAction.edit!.documentChanges!.map(...)]: the assertions are erased
    at run time, so a missing [edit] or [documentChanges] throws. *)
Definition mapCodeActionToOriginal (fragment : DocumentMapper) (codeAction : CodeAction.t)
  : completion CodeAction.t :=
  match CodeAction.edit codeAction with
  | None => Throws TypeError
  | Some edit =>
      match WorkspaceEdit.documentChanges edit with
      | None => Throws TypeError
      | Some documentChanges =>
          bind_completion
            (array_map_throwing (mapDocumentChangeToOriginal fragment) documentChanges)
            (fun mapped =>
               Returns
                 (CodeAction.create
                    (CodeAction.title codeAction)
                    {| WorkspaceEdit.changes := None;
                       WorkspaceEdit.documentChanges := Some (map ChangeTextDocument mapped) |}
                    (CodeAction.kind codeAction)))
      end
  end.

(** ** Text utilities for concrete documents *)

Module TextUtils.
Definition is_line_break (ch : Ascii.ascii) : bool := Ascii.eqb ch "010"%char.

(** Walks [n] characters of [text] from position ([line], [character]). *)
Fixpoint walk (n : nat) (text : string) (line character : Z) : Position.t :=
  match n, text with
  | S n', String ch rest =>
      if is_line_break ch
      then walk n' rest (line + 1) 0
      else walk n' rest line (character + 1)
  | _, _ => Position.create line character
  end.

(** Modelled from the spec: [positionAt] lives in [./utils], which is not
    part of the mapper's file.  The spec has it convert "a linear character
    offset within a given text string" to a (line, column) position by
    "scanning the target text for line breaks up to the target offset".
    The mappers take the function as a parameter; this version serves to
    run the fragment mapper on concrete documents. *)
Definition positionAt (offset : Z) (text : string) : Position.t :=
  walk (Z.to_nat offset) text 0 0.

(** Skips [line] line breaks, then at most [character] characters of the
    line reached; [seen] counts the characters passed. *)
Fixpoint seek (text : string) (line character : nat) (seen : Z) : Z :=
  match text with
  | EmptyString => seen
  | String ch rest =>
      match line, character with
      | S line', _ =>
          seek rest (if is_line_break ch then line' else line) character (seen + 1)
      | O, S character' =>
          if is_line_break ch then seen else seek rest O character' (seen + 1)
      | O, O => seen
      end
  end.

(** Modelled from the spec: [offsetAt] lives in [./utils] as well; the spec
    has it convert a (line, column) position to "a linear character offset
    within a given text string", again by scanning for line breaks.  Taken
    as a parameter by the mappers; this version serves concrete runs. *)
Definition offsetAt (position : Position.t) (text : string) : Z :=
  seek text (Z.to_nat (Position.line position)) (Z.to_nat (Position.character position)) 0.
End TextUtils.

Definition line_break : string := String "010"%char EmptyString.

Definition scenario_url : string := "file:///scenario.svelte".

(** The document and fragment of the spec's end-to-end scenario. *)
Definition scenario_parent : string :=
  ("abcLINE2" ++ line_break ++ "fragment-body" ++ line_break ++ "end")%string.

Definition scenario_tag : TagInformation.t :=
  {| TagInformation.content := ("fragment-body" ++ line_break)%string;
     TagInformation.start := 9;
     TagInformation.end_ := 22 |}.

Definition scenario_mapper : DocumentMapper :=
  FragmentMapper.new TextUtils.offsetAt TextUtils.positionAt
    scenario_parent scenario_tag scenario_url.

(** The bound of a text's valid offsets. *)
Definition text_length (text : string) : Z := Z.of_nat (String.length text).

(** ** Queries and answers of the source-map consumer *)

Definition sentinel : Position.t := Position.create (-1) (-1).

Definition original_query (p : Position.t) : FindPosition.t :=
  {| FindPosition.line := Position.line p + 1;
     FindPosition.column := Position.character p |}.

Definition generated_query (sourceUri : string) (p : Position.t) : SourceFindPosition.t :=
  {| SourceFindPosition.line := Position.line p + 1;
     SourceFindPosition.column := Position.character p;
     SourceFindPosition.source := sourceUri |}.

(** The column a mapped position carries into the result: [column || 0]. *)
Definition column_or_zero (m : MappedPosition.t) : Z :=
  match MappedPosition.column m with
  | Some c => c
  | None => 0
  end.

Definition answers_always (line column : Z) : SourceMapConsumer :=
  {| originalPositionFor := fun _ =>
       Some {| MappedPosition.line := Some line; MappedPosition.column := Some column |};
     generatedPositionFor := fun _ =>
       Some {| MappedPosition.line := Some line; MappedPosition.column := Some column |} |}.

Definition answers_null : SourceMapConsumer :=
  {| originalPositionFor := fun _ => None;
     generatedPositionFor := fun _ => None |}.

(** ** Shapes of remapped values *)

(** A text edit with its range mapped and its text kept. *)
Definition edit_with_mapped_range (fragment : DocumentMapper) (edit : TextEdit.t) : TextEdit.t :=
  {| TextEdit.range :=
       Range.create
         (getOriginalPosition fragment (Range.start (TextEdit.range edit)))
         (getOriginalPosition fragment (Range.end_ (TextEdit.range edit)));
     TextEdit.newText := TextEdit.newText edit |}.

(** ** Sample protocol values *)

Definition in_fragment : Range.t :=
  Range.create (Position.create 0 0) (Position.create 0 5).

Definition in_parent : Range.t :=
  Range.create (Position.create 1 0) (Position.create 1 5).

Definition same_file_link : LocationLink.t :=
  LocationLink.create scenario_url in_fragment in_fragment (Some in_fragment).

Definition other_file_link : LocationLink.t :=
  LocationLink.create "b.txt" in_fragment in_fragment (Some in_fragment).

Definition owned_edit : TextDocumentEdit.t :=
  TextDocumentEdit.create
    {| TextDocumentIdentifier.uri := scenario_url; TextDocumentIdentifier.version := Some 3 |}
    [TextEdit.mk in_fragment "body"; TextEdit.mk in_fragment "tail"].

Definition foreign_edit : TextDocumentEdit.t :=
  TextDocumentEdit.create
    {| TextDocumentIdentifier.uri := "b.txt"; TextDocumentIdentifier.version := None |}
    [TextEdit.mk in_fragment "body"].

Definition sample_code_action : CodeAction.t :=
  {| CodeAction.title := "Organize";
     CodeAction.kind := Some "source.organizeImports"%string;
     CodeAction.diagnostics := Some [];
     CodeAction.isPreferred := Some true;
     CodeAction.edit :=
       Some {| WorkspaceEdit.changes := Some [];
               WorkspaceEdit.documentChanges :=
                 Some [ChangeTextDocument owned_edit; ChangeTextDocument foreign_edit] |};
     CodeAction.command := Some (Command.mk "Run" "organize" None);
     CodeAction.data := Some "payload"%string |}.

Definition sample_code_action_mapped : CodeAction.t :=
  CodeAction.create "Organize"
    {| WorkspaceEdit.changes := None;
       WorkspaceEdit.documentChanges :=
         Some [ChangeTextDocument
                 (TextDocumentEdit.create
                    (TextDocumentEdit.textDocument owned_edit)
                    [TextEdit.mk in_parent "body"; TextEdit.mk in_parent "tail"]);
               ChangeTextDocument foreign_edit] |}
    (Some "source.organizeImports"%string).

Definition bare_completion_item : CompletionItem.t :=
  {| CompletionItem.label := "onMount";
     CompletionItem.kind := Some 3;
     CompletionItem.detail := None;
     CompletionItem.documentation := None;
     CompletionItem.sortText := None;
     CompletionItem.filterText := None;
     CompletionItem.insertText := Some "onMount"%string;
     CompletionItem.textEdit := None;
     CompletionItem.additionalTextEdits := Some [TextEdit.mk in_fragment "import"];
     CompletionItem.commitCharacters := None;
     CompletionItem.command := None;
     CompletionItem.data := None |}.

Definition bare_hover : Hover.t :=
  {| Hover.contents := "let count: number"%string; Hover.range := None |}.

(** ** Answers that count as mapped *)

(** The consumer answered an object whose line is 1 or more. *)
Definition answered_line (answer : option MappedPosition.t) : Prop :=
  exists m l, answer = Some m /\ MappedPosition.line m = Some l /\ 1 <= l.

(** ** Further sample values *)

(** A consumer that maps generated line [l] to original line [l + shift]
    and back, columns kept (lines in the consumer's own numbering). *)
Definition shifts_lines (shift : Z) : SourceMapConsumer :=
  {| originalPositionFor := fun query =>
       Some {| MappedPosition.line := Some (FindPosition.line query + shift);
               MappedPosition.column := Some (FindPosition.column query) |};
     generatedPositionFor := fun query =>
       Some {| MappedPosition.line := Some (SourceFindPosition.line query - shift);
               MappedPosition.column := Some (SourceFindPosition.column query) |} |}.

(** A consumer whose answers carry a [null] line. *)
Definition answers_null_line (column : Z) : SourceMapConsumer :=
  {| originalPositionFor := fun _ =>
       Some {| MappedPosition.line := None; MappedPosition.column := Some column |};
     generatedPositionFor := fun _ =>
       Some {| MappedPosition.line := None; MappedPosition.column := Some column |} |}.

Definition sample_diagnostic (range : Range.t) : Diagnostic.t :=
  {| Diagnostic.range := range;
     Diagnostic.severity := Some 1;
     Diagnostic.code := Some (inl 2322);
     Diagnostic.source := Some "ts"%string;
     Diagnostic.message := "Type mismatch";
     Diagnostic.tags := None;
     Diagnostic.relatedInformation := None;
     Diagnostic.data := None |}.

Definition completion_item_with_edit : CompletionItem.t :=
  {| CompletionItem.label := "onMount";
     CompletionItem.kind := Some 3;
     CompletionItem.detail := None;
     CompletionItem.documentation := None;
     CompletionItem.sortText := None;
     CompletionItem.filterText := None;
     CompletionItem.insertText := None;
     CompletionItem.textEdit := Some (TextEdit.mk in_fragment "onMount");
     CompletionItem.additionalTextEdits := Some [TextEdit.mk in_fragment "import"];
     CompletionItem.commitCharacters := None;
     CompletionItem.command := None;
     CompletionItem.data := None |}.

Definition hover_with_range : Hover.t :=
  {| Hover.contents := "let count: number"%string; Hover.range := Some in_fragment |}.

Definition code_action_creating_file : CodeAction.t :=
  {| CodeAction.title := "Extract";
     CodeAction.kind := None;
     CodeAction.diagnostics := None;
     CodeAction.isPreferred := None;
     CodeAction.edit :=
       Some {| WorkspaceEdit.changes := None;
               WorkspaceEdit.documentChanges :=
                 Some [ChangeTextDocument owned_edit; ChangeResource (CreateFile "c.txt")] |};
     CodeAction.command := None;
     CodeAction.data := None |}.

(** * Properties *)

(** ** Helpers *)

Lemma offsets_upto (n : nat) (P : Z -> bool) :
  forallb P (map Z.of_nat (seq 0 (S n))) = true ->
  forall o, 0 <= o <= Z.of_nat n -> P o = true.
Proof.
  intros Hall o Ho.
  rewrite forallb_forall in Hall.
  apply Hall.
  replace o with (Z.of_nat (Z.to_nat o)) by lia.
  apply in_map, in_seq. lia.
Qed.

Example scenario_forward :
  getOriginalPosition scenario_mapper (Position.create 0 5) = Position.create 1 5.
Proof. reflexivity. Qed.

Example scenario_backward :
  getGeneratedPosition scenario_mapper (Position.create 1 5) = Position.create 0 5.
Proof. reflexivity. Qed.

(** ** Identity mapper *)

Lemma identity_mapper_is_identity (url : string) (p : Position.t) :
  getOriginalPosition (IdentityMapper.new url) p = p
  /\ getGeneratedPosition (IdentityMapper.new url) p = p
  /\ isInGenerated (IdentityMapper.new url) p = true.
Proof. repeat split. Qed.

(** ** Fragment mapper *)

Section FragmentProperties.
Variable offsetAt : Position.t -> string -> Z.
Variable positionAt : Z -> string -> Position.t.
Variable originalText : string.
Variable tagInfo : TagInformation.t.
Variable url : string.

Let mapper : DocumentMapper :=
  FragmentMapper.new offsetAt positionAt originalText tagInfo url.
Let content : string := TagInformation.content tagInfo.
Let fragment_start : Z := TagInformation.start tagInfo.
Let fragment_end : Z := TagInformation.end_ tagInfo.

(** Forward then back, with the offsets written out. *)
Lemma round_trip_offsets (p : Position.t) :
  getGeneratedPosition mapper (getOriginalPosition mapper p)
  = positionAt
      (offsetAt (positionAt (fragment_start + offsetAt p content) originalText) originalText
       - fragment_start)
      content.
Proof. reflexivity. Qed.

(** C3. Round trip of the fragment mapper.  Take the text utilities to be
    mutually inverse on valid offsets: [offsetAt] undoes [positionAt] on
    every offset from 0 to the length of the parent text, and [positionAt]
    gives [p] back from the fragment-local offset of [p].  Let the fragment
    lie inside the parent text (it starts at a non-negative offset and its
    text ends no later than the parent's).  Then for every generated
    position [p] whose fragment-local offset is between 0 and the length of
    the fragment text, [getGeneratedPosition (getOriginalPosition p) = p]. *)
Theorem fragment_round_trip (p : Position.t) :
  (forall o, 0 <= o <= text_length originalText ->
             offsetAt (positionAt o originalText) originalText = o) ->
  (0 <= offsetAt p content <= text_length content ->
   positionAt (offsetAt p content) content = p) ->
  0 <= fragment_start ->
  fragment_start + text_length content <= text_length originalText ->
  0 <= offsetAt p content <= text_length content ->
  getGeneratedPosition mapper (getOriginalPosition mapper p) = p.
Proof.
  intros Hparent Hfragment Hstart Hinside Hp.
  rewrite round_trip_offsets.
  rewrite Hparent by lia.
  replace (fragment_start + offsetAt p content - fragment_start)
    with (offsetAt p content) by lia.
  now apply Hfragment.
Qed.

(** C4. [isInGenerated] answers true exactly when the offset of the
    original position, taken against the parent text, lies in the closed
    interval from the fragment's start to its end; it answers false one
    offset below the start and one offset above the end. *)
Theorem fragment_isInGenerated_closed_interval (p : Position.t) :
  (isInGenerated mapper p = true
   <-> fragment_start <= offsetAt p originalText <= fragment_end)
  /\ (offsetAt p originalText = fragment_start - 1 -> isInGenerated mapper p = false)
  /\ (offsetAt p originalText = fragment_end + 1 -> isInGenerated mapper p = false).
Proof.
  assert (Hiff : isInGenerated mapper p = true
                 <-> fragment_start <= offsetAt p originalText <= fragment_end).
  { cbn. unfold FragmentMapper.isInGenerated.
    rewrite andb_true_iff, Z.geb_le, Z.leb_le. reflexivity. }
  split; [exact Hiff|].
  split; intros Hoff; apply not_true_is_false; rewrite Hiff; lia.
Qed.
End FragmentProperties.

(** ** Source-map mapper *)

Lemma or_zero_value (x : option Z) :
  or_zero x = match x with Some v => v | None => 0 end.
Proof.
  destruct x as [v|]; cbn; [|reflexivity].
  destruct (Z.eqb_spec v 0); congruence.
Qed.

Lemma or_zero_column (m : MappedPosition.t) :
  or_zero (MappedPosition.column m) = column_or_zero m.
Proof. apply or_zero_value. Qed.

Section SourceMapProperties.
Variable consumer : SourceMapConsumer.
Variable sourceUri : string.

Let mapper : DocumentMapper := SourceMapDocumentMapper.new sourceUri consumer.

Lemma getOriginalPosition_null (p : Position.t) :
  originalPositionFor consumer (original_query p) = None ->
  getOriginalPosition mapper p = sentinel.
Proof.
  intros Hnull. cbn.
  unfold SourceMapDocumentMapper.getOriginalPosition, result. cbn.
  fold (original_query p). now rewrite Hnull.
Qed.

Lemma getOriginalPosition_mapped (p : Position.t) (m : MappedPosition.t) :
  originalPositionFor consumer (original_query p) = Some m ->
  getOriginalPosition mapper p
  = Position.create (or_zero (MappedPosition.line m) - 1) (column_or_zero m).
Proof.
  intros Hm. cbn.
  unfold SourceMapDocumentMapper.getOriginalPosition, result. cbn.
  fold (original_query p). rewrite Hm, or_zero_column.
  now destruct (is_zero (MappedPosition.line m)).
Qed.

Lemma getGeneratedPosition_null (p : Position.t) :
  generatedPositionFor consumer (generated_query sourceUri p) = None ->
  getGeneratedPosition mapper p = sentinel.
Proof.
  intros Hnull. cbn.
  unfold SourceMapDocumentMapper.getGeneratedPosition, result. cbn.
  fold (generated_query sourceUri p). now rewrite Hnull.
Qed.

Lemma getGeneratedPosition_mapped (p : Position.t) (m : MappedPosition.t) :
  generatedPositionFor consumer (generated_query sourceUri p) = Some m ->
  getGeneratedPosition mapper p
  = Position.create (or_zero (MappedPosition.line m) - 1) (column_or_zero m).
Proof.
  intros Hm. cbn.
  unfold SourceMapDocumentMapper.getGeneratedPosition, result. cbn.
  fold (generated_query sourceUri p). rewrite Hm, or_zero_column. cbn.
  now destruct (or_zero (MappedPosition.line m) - 1 <? 0).
Qed.

(** [isInGenerated] is the sign test on the line of [getGeneratedPosition]. *)
Lemma isInGenerated_from_generated (p : Position.t) :
  isInGenerated mapper p = (Position.line (getGeneratedPosition mapper p) >=? 0).
Proof.
  cbn. unfold SourceMapDocumentMapper.isInGenerated,
    SourceMapDocumentMapper.getGeneratedPosition, result. cbn.
  destruct (generatedPositionFor consumer _) as [m|]; cbn; [|reflexivity].
  now destruct (or_zero (MappedPosition.line m) - 1 <? 0).
Qed.
End SourceMapProperties.

(** C1, as stated, fails: a consumer that answers line 0 with column 5
    makes [getOriginalPosition] return [(-1, 5)], not the sentinel
    [(-1, -1)]. *)
Lemma sourcemap_zero_line_not_sentinel :
  ~ (forall (consumer : SourceMapConsumer) (sourceUri : string) (p : Position.t),
        let response := originalPositionFor consumer (original_query p) in
        (response = None
         \/ exists m, response = Some m /\ MappedPosition.line m = Some 0) ->
        getOriginalPosition (SourceMapDocumentMapper.new sourceUri consumer) p = sentinel).
Proof.
  intros Hclaim.
  specialize (Hclaim (answers_always 0 5) "a.txt"%string (Position.create 0 0)).
  cbn in Hclaim.
  assert (Hres : Position.create (-1) 5 = sentinel).
  { apply Hclaim. right. eexists. split; reflexivity. }
  discriminate Hres.
Qed.

(** C1, amended.  When the consumer answers nothing, [getOriginalPosition]
    and [getGeneratedPosition] return the sentinel [(-1, -1)].  When it
    answers a mapping whose line is 0, they return line [-1] with the
    mapping's column as character (0 when the column is null).  In both
    cases [isInGenerated] of the original position is false. *)
Theorem sourcemap_miss_handling
    (consumer : SourceMapConsumer) (sourceUri : string) (p : Position.t) :
  let mapper := SourceMapDocumentMapper.new sourceUri consumer in
  (originalPositionFor consumer (original_query p) = None ->
   getOriginalPosition mapper p = sentinel)
  /\ (forall m, originalPositionFor consumer (original_query p) = Some m ->
                MappedPosition.line m = Some 0 ->
                getOriginalPosition mapper p = Position.create (-1) (column_or_zero m))
  /\ (generatedPositionFor consumer (generated_query sourceUri p) = None ->
      getGeneratedPosition mapper p = sentinel /\ isInGenerated mapper p = false)
  /\ (forall m, generatedPositionFor consumer (generated_query sourceUri p) = Some m ->
                MappedPosition.line m = Some 0 ->
                getGeneratedPosition mapper p = Position.create (-1) (column_or_zero m)
                /\ isInGenerated mapper p = false).
Proof.
  intros mapper. repeat apply conj.
  - apply getOriginalPosition_null.
  - intros m Hm Hline. subst mapper.
    rewrite (getOriginalPosition_mapped _ _ _ _ Hm), Hline. reflexivity.
  - intros Hnull. subst mapper.
    rewrite isInGenerated_from_generated, (getGeneratedPosition_null _ _ _ Hnull).
    split; reflexivity.
  - intros m Hm Hline. subst mapper.
    rewrite isInGenerated_from_generated, (getGeneratedPosition_mapped _ _ _ _ Hm), Hline.
    split; reflexivity.
Qed.

Lemma sourcemap_miss_handling_witness :
  let p := Position.create 3 4 in
  getOriginalPosition (SourceMapDocumentMapper.new "a.txt" answers_null) p = sentinel
  /\ getOriginalPosition (SourceMapDocumentMapper.new "a.txt" (answers_always 0 5)) p
     = Position.create (-1) 5
  /\ (getGeneratedPosition (SourceMapDocumentMapper.new "a.txt" answers_null) p = sentinel
      /\ isInGenerated (SourceMapDocumentMapper.new "a.txt" answers_null) p = false)
  /\ (getGeneratedPosition (SourceMapDocumentMapper.new "a.txt" (answers_always 0 5)) p
      = Position.create (-1) 5
      /\ isInGenerated (SourceMapDocumentMapper.new "a.txt" (answers_always 0 5)) p = false).
Proof.
  intros p.
  destruct (sourcemap_miss_handling answers_null "a.txt" p) as [Hnull [_ [Hgnull _]]].
  destruct (sourcemap_miss_handling (answers_always 0 5) "a.txt" p) as [_ [Hzero [_ Hgzero]]].
  split; [apply Hnull; reflexivity|].
  split; [apply (Hzero _ eq_refl); reflexivity|].
  split; [apply Hgnull; reflexivity|].
  apply (Hgzero _ eq_refl); reflexivity.
Defined.

(** C2, as stated, fails: a response with line 0 and column 7 is rendered
    as core line [-1] carrying the response's column. *)
Lemma sourcemap_zero_line_keeps_column :
  ~ (forall (consumer : SourceMapConsumer) (sourceUri : string) (p : Position.t)
            (m : MappedPosition.t),
        originalPositionFor consumer (original_query p) = Some m ->
        MappedPosition.line m = Some 0 ->
        let mapped := getOriginalPosition (SourceMapDocumentMapper.new sourceUri consumer) p in
        ~ (Position.line mapped = -1
           /\ MappedPosition.column m = Some (Position.character mapped))).
Proof.
  intros Hclaim.
  apply (Hclaim (answers_always 0 7) "a.txt"%string (Position.create 2 1) _ eq_refl eq_refl).
  split; reflexivity.
Qed.

(** C2, amended.  [getOriginalPosition] asks the consumer once, with line
    [line + 1] and the character as column (and logs when the answer has
    line 0); [getGeneratedPosition] asks once, with line [line + 1], the
    character as column and the source URI.  An answered line [l] becomes
    core line [l - 1], so line 1 becomes core line 0.  An answer with line 0
    becomes core line [-1] with the answer's column as character (0 when
    null); it differs from a genuine mapping by its line alone, as an
    answered line of 1 or more gives a core line of 0 or more. *)
Theorem sourcemap_line_convention
    (consumer : SourceMapConsumer) (sourceUri : string) (p : Position.t) :
  let mapper := SourceMapDocumentMapper.new sourceUri consumer in
  effects consumer (SourceMapDocumentMapper.getOriginalPosition_body p)
  = OriginalPositionFor (original_query p)
    :: match originalPositionFor consumer (original_query p) with
       | Some m =>
           if is_zero (MappedPosition.line m)
           then [LoggerLog p (MappedPosition.column m)]
           else []
       | None => []
       end
  /\ effects consumer (SourceMapDocumentMapper.getGeneratedPosition_body sourceUri p)
     = [GeneratedPositionFor (generated_query sourceUri p)]
  /\ (forall m l,
        originalPositionFor consumer (original_query p) = Some m ->
        MappedPosition.line m = Some l ->
        getOriginalPosition mapper p = Position.create (l - 1) (column_or_zero m))
  /\ (forall m l,
        generatedPositionFor consumer (generated_query sourceUri p) = Some m ->
        MappedPosition.line m = Some l ->
        getGeneratedPosition mapper p = Position.create (l - 1) (column_or_zero m))
  /\ (forall m l,
        originalPositionFor consumer (original_query p) = Some m ->
        MappedPosition.line m = Some l ->
        (l = 0 -> Position.line (getOriginalPosition mapper p) = -1)
        /\ (1 <= l -> 0 <= Position.line (getOriginalPosition mapper p))).
Proof.
  intros mapper.
  assert (Horig : forall m l,
             originalPositionFor consumer (original_query p) = Some m ->
             MappedPosition.line m = Some l ->
             getOriginalPosition mapper p = Position.create (l - 1) (column_or_zero m)).
  { intros m l Hm Hline. subst mapper.
    rewrite (getOriginalPosition_mapped _ _ _ _ Hm), Hline, or_zero_value. reflexivity. }
  repeat apply conj.
  - unfold effects. cbn. fold (original_query p).
    destruct (originalPositionFor consumer (original_query p)) as [m|]; cbn; [|reflexivity].
    now destruct (is_zero (MappedPosition.line m)).
  - unfold effects. cbn. fold (generated_query sourceUri p).
    destruct (generatedPositionFor consumer (generated_query sourceUri p)) as [m|];
      cbn; [|reflexivity].
    now destruct (or_zero (MappedPosition.line m) - 1 <? 0).
  - exact Horig.
  - intros m l Hm Hline. subst mapper.
    rewrite (getGeneratedPosition_mapped _ _ _ _ Hm), Hline, or_zero_value. reflexivity.
  - intros m l Hm Hline.
    rewrite (Horig m l Hm Hline). cbn. lia.
Qed.

Lemma sourcemap_line_convention_witness :
  let p := Position.create 3 4 in
  getOriginalPosition (SourceMapDocumentMapper.new "a.txt" (answers_always 1 9)) p
  = Position.create 0 9
  /\ getGeneratedPosition (SourceMapDocumentMapper.new "a.txt" (answers_always 1 9)) p
     = Position.create 0 9
  /\ Position.line (getOriginalPosition (SourceMapDocumentMapper.new "a.txt" (answers_always 0 9)) p)
     = -1
  /\ 0 <= Position.line
            (getOriginalPosition (SourceMapDocumentMapper.new "a.txt" (answers_always 6 9)) p).
Proof.
  intros p.
  destruct (sourcemap_line_convention (answers_always 1 9) "a.txt" p)
    as [_ [_ [Horig [Hgen _]]]].
  destruct (sourcemap_line_convention (answers_always 0 9) "a.txt" p)
    as [_ [_ [_ [_ Hzero]]]].
  destruct (sourcemap_line_convention (answers_always 6 9) "a.txt" p)
    as [_ [_ [_ [_ Hsix]]]].
  split; [apply (Horig _ 1 eq_refl eq_refl)|].
  split; [apply (Hgen _ 1 eq_refl eq_refl)|].
  split.
  - apply (Hzero _ 0 eq_refl eq_refl). reflexivity.
  - apply (Hsix _ 6 eq_refl eq_refl). lia.
Defined.

(** ** Remapping functions *)

Lemma mapRangeToOriginal_endpoints (fragment : DocumentMapper) (range : Range.t) :
  Range.start (mapRangeToOriginal fragment range)
  = getOriginalPosition fragment (Range.start range)
  /\ Range.end_ (mapRangeToOriginal fragment range)
     = getOriginalPosition fragment (Range.end_ range).
Proof. split; reflexivity. Qed.

Lemma mapTextEditToOriginal_fields (fragment : DocumentMapper) (edit : TextEdit.t) :
  mapTextEditToOriginal fragment edit = edit_with_mapped_range fragment edit.
Proof. reflexivity. Qed.

Lemma array_map_text_document_edits
    (fragment : DocumentMapper) (textDocumentEdits : list TextDocumentEdit.t) :
  array_map_throwing (mapDocumentChangeToOriginal fragment)
    (map ChangeTextDocument textDocumentEdits)
  = Returns (map (mapTextDocumentEditToOriginal fragment) textDocumentEdits).
Proof.
  induction textDocumentEdits as [|edit rest IH]; cbn; [reflexivity|].
  now rewrite IH.
Qed.

(** C5. For a location link, the target range and the target-selection
    range are mapped through [getOriginalPosition] when the link's
    [targetUri] equals the mapper's URL and are the input's own when it
    differs; the origin-selection range, when present, is mapped whatever
    the [targetUri]; the [targetUri] is kept. *)
Theorem location_link_remapping (fragment : DocumentMapper) (def : LocationLink.t) :
  let mapped := mapLocationLinkToOriginal fragment def in
  LocationLink.targetUri mapped = LocationLink.targetUri def
  /\ (getURL fragment = LocationLink.targetUri def ->
      LocationLink.targetRange mapped
      = Range.create
          (getOriginalPosition fragment (Range.start (LocationLink.targetRange def)))
          (getOriginalPosition fragment (Range.end_ (LocationLink.targetRange def)))
      /\ LocationLink.targetSelectionRange mapped
         = Range.create
             (getOriginalPosition fragment (Range.start (LocationLink.targetSelectionRange def)))
             (getOriginalPosition fragment (Range.end_ (LocationLink.targetSelectionRange def))))
  /\ (getURL fragment <> LocationLink.targetUri def ->
      LocationLink.targetRange mapped = LocationLink.targetRange def
      /\ LocationLink.targetSelectionRange mapped = LocationLink.targetSelectionRange def)
  /\ LocationLink.originSelectionRange mapped
     = option_map
         (fun r => Range.create (getOriginalPosition fragment (Range.start r))
                                (getOriginalPosition fragment (Range.end_ r)))
         (LocationLink.originSelectionRange def).
Proof.
  cbn. split; [reflexivity|].
  destruct (String.eqb_spec (getURL fragment) (LocationLink.targetUri def)) as [Heq|Hneq].
  - split; [intros _; split; reflexivity|].
    split; [intros Hdiff; contradiction|].
    now destruct (LocationLink.originSelectionRange def).
  - split; [intros Hsame; contradiction|].
    split; [intros _; split; reflexivity|].
    now destruct (LocationLink.originSelectionRange def).
Qed.

(** C6. A text-document edit whose document URI equals the mapper's URL
    comes back with every contained edit's range mapped through
    [getOriginalPosition] (texts and document identifier kept); one whose
    URI differs comes back equal to the input. *)
Theorem text_document_edit_remapping (fragment : DocumentMapper) (edit : TextDocumentEdit.t) :
  (TextDocumentIdentifier.uri (TextDocumentEdit.textDocument edit) = getURL fragment ->
   mapTextDocumentEditToOriginal fragment edit
   = TextDocumentEdit.create
       (TextDocumentEdit.textDocument edit)
       (map (edit_with_mapped_range fragment) (TextDocumentEdit.edits edit)))
  /\ (TextDocumentIdentifier.uri (TextDocumentEdit.textDocument edit) <> getURL fragment ->
      mapTextDocumentEditToOriginal fragment edit = edit).
Proof.
  unfold mapTextDocumentEditToOriginal.
  destruct (String.eqb_spec
              (TextDocumentIdentifier.uri (TextDocumentEdit.textDocument edit))
              (getURL fragment)) as [Heq|Hneq]; cbn.
  - split; [reflexivity | intros Hdiff; contradiction].
  - split; [intros Hsame; contradiction | reflexivity].
Qed.

(** C7. For a code action whose edit carries a list of text-document edits,
    [mapCodeActionToOriginal] returns a code action with the input's title
    and kind whose edit's [documentChanges] is the list of the inputs'
    text-document edits, each remapped. *)
Theorem code_action_remapping
    (fragment : DocumentMapper) (codeAction : CodeAction.t)
    (workspaceEdit : WorkspaceEdit.t) (textDocumentEdits : list TextDocumentEdit.t) :
  CodeAction.edit codeAction = Some workspaceEdit ->
  WorkspaceEdit.documentChanges workspaceEdit
  = Some (map ChangeTextDocument textDocumentEdits) ->
  exists mapped,
    mapCodeActionToOriginal fragment codeAction = Returns mapped
    /\ CodeAction.title mapped = CodeAction.title codeAction
    /\ CodeAction.kind mapped = CodeAction.kind codeAction
    /\ exists mappedEdit,
         CodeAction.edit mapped = Some mappedEdit
         /\ WorkspaceEdit.documentChanges mappedEdit
            = Some (map ChangeTextDocument
                      (map (mapTextDocumentEditToOriginal fragment) textDocumentEdits)).
Proof.
  intros Hedit Hchanges.
  unfold mapCodeActionToOriginal.
  rewrite Hedit, Hchanges, array_map_text_document_edits. cbn.
  eexists. split; [reflexivity|]. cbn.
  repeat split. eexists. split; reflexivity.
Qed.

(** C8. A completion item without a text edit and a hover without a range
    come back unchanged; both functions return a value on every input. *)
Theorem missing_optional_field_identity
    (fragment : DocumentMapper) (item : CompletionItem.t) (hover : Hover.t) :
  (CompletionItem.textEdit item = None -> mapCompletionItemToOriginal fragment item = item)
  /\ (Hover.range hover = None -> mapHoverToParent fragment hover = hover).
Proof.
  split; intros Hmissing.
  - unfold mapCompletionItemToOriginal. now rewrite Hmissing.
  - unfold mapHoverToParent. now rewrite Hmissing.
Qed.

(** C10. Whenever [mapCodeActionToOriginal] returns a code action, that
    action has the input's title and kind and an edit that holds
    [documentChanges] only; its diagnostics, isPreferred, command and data
    are absent, whatever the input carried there.  It does return one for
    every input whose edit carries a list of text-document edits. *)
Theorem code_action_drops_other_fields
    (fragment : DocumentMapper) (codeAction : CodeAction.t) :
  (forall mapped : CodeAction.t,
      mapCodeActionToOriginal fragment codeAction = Returns mapped ->
      CodeAction.title mapped = CodeAction.title codeAction
      /\ CodeAction.kind mapped = CodeAction.kind codeAction
      /\ (exists documentChanges,
            CodeAction.edit mapped
            = Some {| WorkspaceEdit.changes := None;
                      WorkspaceEdit.documentChanges := Some documentChanges |})
      /\ CodeAction.diagnostics mapped = None
      /\ CodeAction.isPreferred mapped = None
      /\ CodeAction.command mapped = None
      /\ CodeAction.data mapped = None)
  /\ (forall workspaceEdit textDocumentEdits,
         CodeAction.edit codeAction = Some workspaceEdit ->
         WorkspaceEdit.documentChanges workspaceEdit
         = Some (map ChangeTextDocument textDocumentEdits) ->
         exists mapped, mapCodeActionToOriginal fragment codeAction = Returns mapped).
Proof.
  unfold mapCodeActionToOriginal. split.
  - intros mapped.
    destruct (CodeAction.edit codeAction) as [edit|]; [|discriminate].
    destruct (WorkspaceEdit.documentChanges edit) as [documentChanges|]; [|discriminate].
    destruct (array_map_throwing _ documentChanges) as [changes|e]; cbn; [|discriminate].
    intros Hret. injection Hret as <-. cbn.
    repeat split. eexists. reflexivity.
  - intros workspaceEdit textDocumentEdits Hedit Hchanges.
    rewrite Hedit, Hchanges, array_map_text_document_edits. cbn.
    eexists. reflexivity.
Qed.

(** C9. Frame property.  The remapping of a diagnostic, a color
    information, a symbol information, a location and a text edit replaces
    the range (for a symbol information: the range inside its location)
    by its image under [getOriginalPosition] and keeps every other field;
    a color presentation keeps its label, has its primary edit and each
    additional edit remapped on its own, and a presentation with a primary
    edit and additional edits comes back with exactly those ranges mapped. *)
Theorem remapping_frame (fragment : DocumentMapper) :
  (forall d : Diagnostic.t,
      let d' := mapDiagnosticToOriginal fragment d in
      Diagnostic.range d' = mapRangeToOriginal fragment (Diagnostic.range d)
      /\ Diagnostic.severity d' = Diagnostic.severity d
      /\ Diagnostic.code d' = Diagnostic.code d
      /\ Diagnostic.source d' = Diagnostic.source d
      /\ Diagnostic.message d' = Diagnostic.message d
      /\ Diagnostic.tags d' = Diagnostic.tags d
      /\ Diagnostic.relatedInformation d' = Diagnostic.relatedInformation d
      /\ Diagnostic.data d' = Diagnostic.data d)
  /\ (forall info : ColorInformation.t,
        let info' := mapColorInformationToOriginal fragment info in
        ColorInformation.range info' = mapRangeToOriginal fragment (ColorInformation.range info)
        /\ ColorInformation.color info' = ColorInformation.color info)
  /\ (forall info : SymbolInformation.t,
        let info' := mapSymbolInformationToOriginal fragment info in
        Location.range (SymbolInformation.location info')
        = mapRangeToOriginal fragment (Location.range (SymbolInformation.location info))
        /\ Location.uri (SymbolInformation.location info')
           = Location.uri (SymbolInformation.location info)
        /\ SymbolInformation.name info' = SymbolInformation.name info
        /\ SymbolInformation.kind info' = SymbolInformation.kind info
        /\ SymbolInformation.tags info' = SymbolInformation.tags info
        /\ SymbolInformation.deprecated info' = SymbolInformation.deprecated info
        /\ SymbolInformation.containerName info' = SymbolInformation.containerName info)
  /\ (forall loc : Location.t,
        let loc' := mapLocationToOriginal fragment loc in
        Location.range loc' = mapRangeToOriginal fragment (Location.range loc)
        /\ Location.uri loc' = Location.uri loc)
  /\ (forall edit : TextEdit.t,
        let edit' := mapTextEditToOriginal fragment edit in
        TextEdit.range edit' = mapRangeToOriginal fragment (TextEdit.range edit)
        /\ TextEdit.newText edit' = TextEdit.newText edit)
  /\ (forall presentation : ColorPresentation.t,
        let presentation' := mapColorPresentationToOriginal fragment presentation in
        ColorPresentation.label presentation' = ColorPresentation.label presentation
        /\ ColorPresentation.textEdit presentation'
           = option_map (edit_with_mapped_range fragment)
               (ColorPresentation.textEdit presentation)
        /\ ColorPresentation.additionalTextEdits presentation'
           = option_map (map (edit_with_mapped_range fragment))
               (ColorPresentation.additionalTextEdits presentation))
  /\ (forall (label : string) (primary : TextEdit.t) (additional : list TextEdit.t),
        mapColorPresentationToOriginal fragment
          {| ColorPresentation.label := label;
             ColorPresentation.textEdit := Some primary;
             ColorPresentation.additionalTextEdits := Some additional |}
        = {| ColorPresentation.label := label;
             ColorPresentation.textEdit := Some (edit_with_mapped_range fragment primary);
             ColorPresentation.additionalTextEdits :=
               Some (map (edit_with_mapped_range fragment) additional) |}).
Proof.
  repeat apply conj; try (intros; cbn; repeat split; reflexivity).
  intros [label [primary|] [additional|]]; cbn; repeat split; reflexivity.
Qed.

(** ** Concrete instances *)

Lemma fragment_round_trip_witness :
  getGeneratedPosition scenario_mapper
    (getOriginalPosition scenario_mapper (Position.create 0 5))
  = Position.create 0 5.
Proof.
  apply (fragment_round_trip TextUtils.offsetAt TextUtils.positionAt
           scenario_parent scenario_tag scenario_url (Position.create 0 5)).
  - intros o Ho. apply Z.eqb_eq.
    apply (offsets_upto (String.length scenario_parent)
             (fun o => TextUtils.offsetAt (TextUtils.positionAt o scenario_parent)
                         scenario_parent =? o));
      [vm_compute; reflexivity | exact Ho].
  - intros _. reflexivity.
  - cbn. lia.
  - vm_compute. discriminate.
  - vm_compute. split; discriminate.
Defined.

Lemma fragment_isInGenerated_closed_interval_witness :
  isInGenerated scenario_mapper (Position.create 1 5) = true
  /\ isInGenerated scenario_mapper (Position.create 0 8) = false
  /\ isInGenerated scenario_mapper (Position.create 2 0) = false.
Proof.
  pose proof (fragment_isInGenerated_closed_interval TextUtils.offsetAt TextUtils.positionAt
                scenario_parent scenario_tag scenario_url) as Hat.
  destruct (Hat (Position.create 1 5)) as [Hinside _].
  destruct (Hat (Position.create 0 8)) as [_ [Hbelow _]].
  destruct (Hat (Position.create 2 0)) as [_ [_ Habove]].
  split; [|split].
  - apply Hinside. vm_compute. split; discriminate.
  - apply Hbelow. reflexivity.
  - apply Habove. reflexivity.
Defined.

Lemma location_link_remapping_witness :
  (LocationLink.targetRange (mapLocationLinkToOriginal scenario_mapper same_file_link)
   = in_parent
   /\ LocationLink.targetSelectionRange (mapLocationLinkToOriginal scenario_mapper same_file_link)
      = in_parent)
  /\ (LocationLink.targetRange (mapLocationLinkToOriginal scenario_mapper other_file_link)
      = in_fragment
      /\ LocationLink.targetSelectionRange
           (mapLocationLinkToOriginal scenario_mapper other_file_link)
         = in_fragment).
Proof.
  destruct (location_link_remapping scenario_mapper same_file_link) as [_ [Hsame _]].
  destruct (location_link_remapping scenario_mapper other_file_link) as [_ [_ [Hother _]]].
  split.
  - apply Hsame. reflexivity.
  - apply Hother. cbn. discriminate.
Defined.

Lemma text_document_edit_remapping_witness :
  mapTextDocumentEditToOriginal scenario_mapper owned_edit
  = TextDocumentEdit.create
      (TextDocumentEdit.textDocument owned_edit)
      [TextEdit.mk in_parent "body"; TextEdit.mk in_parent "tail"]
  /\ mapTextDocumentEditToOriginal scenario_mapper foreign_edit = foreign_edit.
Proof.
  destruct (text_document_edit_remapping scenario_mapper owned_edit) as [Howned _].
  destruct (text_document_edit_remapping scenario_mapper foreign_edit) as [_ Hforeign].
  split.
  - apply Howned. reflexivity.
  - apply Hforeign. cbn. discriminate.
Defined.

Lemma code_action_remapping_witness :
  exists mapped,
    mapCodeActionToOriginal scenario_mapper sample_code_action = Returns mapped
    /\ CodeAction.title mapped = "Organize"%string
    /\ CodeAction.kind mapped = Some "source.organizeImports"%string
    /\ exists mappedEdit,
         CodeAction.edit mapped = Some mappedEdit
         /\ WorkspaceEdit.documentChanges mappedEdit
            = Some (map ChangeTextDocument
                      (map (mapTextDocumentEditToOriginal scenario_mapper)
                         [owned_edit; foreign_edit])).
Proof.
  apply (code_action_remapping scenario_mapper sample_code_action
           {| WorkspaceEdit.changes := Some [];
              WorkspaceEdit.documentChanges :=
                Some [ChangeTextDocument owned_edit; ChangeTextDocument foreign_edit] |}
           [owned_edit; foreign_edit]); reflexivity.
Defined.

Lemma missing_optional_field_identity_witness :
  mapCompletionItemToOriginal scenario_mapper bare_completion_item = bare_completion_item
  /\ mapHoverToParent scenario_mapper bare_hover = bare_hover.
Proof.
  destruct (missing_optional_field_identity scenario_mapper bare_completion_item bare_hover)
    as [Hitem Hhover].
  split; [apply Hitem | apply Hhover]; reflexivity.
Defined.

Lemma code_action_drops_other_fields_witness :
  mapCodeActionToOriginal scenario_mapper sample_code_action
  = Returns sample_code_action_mapped
  /\ CodeAction.diagnostics sample_code_action = Some []
  /\ CodeAction.diagnostics sample_code_action_mapped = None
  /\ CodeAction.isPreferred sample_code_action_mapped = None
  /\ CodeAction.command sample_code_action_mapped = None
  /\ CodeAction.data sample_code_action_mapped = None
  /\ exists mapped, mapCodeActionToOriginal scenario_mapper sample_code_action = Returns mapped.
Proof.
  assert (Hruns : mapCodeActionToOriginal scenario_mapper sample_code_action
                  = Returns sample_code_action_mapped) by reflexivity.
  destruct (code_action_drops_other_fields scenario_mapper sample_code_action)
    as [Hfields Hreturns].
  destruct (Hfields sample_code_action_mapped Hruns)
    as [_ [_ [_ [Hdiagnostics [HisPreferred [Hcommand Hdata]]]]]].
  repeat split; try assumption.
  apply (Hreturns
           {| WorkspaceEdit.changes := Some [];
              WorkspaceEdit.documentChanges :=
                Some [ChangeTextDocument owned_edit; ChangeTextDocument foreign_edit] |}
           [owned_edit; foreign_edit]); reflexivity.
Defined.

Example color_presentation_three_ranges :
  mapColorPresentationToOriginal scenario_mapper
    {| ColorPresentation.label := "#fff";
       ColorPresentation.textEdit := Some (TextEdit.mk in_fragment "#fff");
       ColorPresentation.additionalTextEdits :=
         Some [TextEdit.mk in_fragment "a"; TextEdit.mk in_fragment "b"] |}
  = {| ColorPresentation.label := "#fff";
       ColorPresentation.textEdit := Some (TextEdit.mk in_parent "#fff");
       ColorPresentation.additionalTextEdits :=
         Some [TextEdit.mk in_parent "a"; TextEdit.mk in_parent "b"] |}.
Proof. reflexivity. Qed.

Example code_action_without_edit_throws :
  mapCodeActionToOriginal scenario_mapper
    {| CodeAction.title := "Organize"; CodeAction.kind := None;
       CodeAction.diagnostics := None; CodeAction.isPreferred := None;
       CodeAction.edit := None; CodeAction.command := None; CodeAction.data := None |}
  = Throws TypeError.
Proof. reflexivity. Qed.

(** * Further properties *)

(** ** Remapping through a mapper that leaves positions alone *)

Section PositionPreserving.
Variable fragment : DocumentMapper.
Hypothesis original_kept : forall p, getOriginalPosition fragment p = p.

Lemma range_kept (range : Range.t) : mapRangeToOriginal fragment range = range.
Proof.
  destruct range as [s e]. unfold mapRangeToOriginal. cbn.
  now rewrite !original_kept.
Qed.

Lemma text_edit_kept (edit : TextEdit.t) : mapTextEditToOriginal fragment edit = edit.
Proof.
  destruct edit as [r t]. unfold mapTextEditToOriginal, TextEdit.with_range. cbn.
  now rewrite range_kept.
Qed.

Lemma text_edits_kept (edits : list TextEdit.t) :
  map (fun edit => mapTextEditToOriginal fragment edit) edits = edits.
Proof.
  induction edits as [|edit rest IH]; cbn; [reflexivity|].
  now rewrite text_edit_kept, IH.
Qed.

Lemma location_kept (loc : Location.t) : mapLocationToOriginal fragment loc = loc.
Proof.
  destruct loc as [u r]. unfold mapLocationToOriginal, Location.with_range. cbn.
  now rewrite range_kept.
Qed.

Lemma simple_shapes_kept :
  (forall item, mapCompletionItemToOriginal fragment item = item)
  /\ (forall hover, mapHoverToParent fragment hover = hover)
  /\ (forall d, mapDiagnosticToOriginal fragment d = d)
  /\ (forall info, mapColorInformationToOriginal fragment info = info)
  /\ (forall info, mapSymbolInformationToOriginal fragment info = info).
Proof.
  repeat apply conj.
  - intros item. unfold mapCompletionItemToOriginal.
    destruct item as [? ? ? ? ? ? ? [e|] ? ? ? ?]; cbn; [|reflexivity].
    unfold CompletionItem.with_textEdit. cbn. now rewrite text_edit_kept.
  - intros hover. unfold mapHoverToParent.
    destruct hover as [c [r|]]; cbn; [|reflexivity].
    unfold Hover.with_range. cbn. now rewrite range_kept.
  - intros d. destruct d. unfold mapDiagnosticToOriginal, Diagnostic.with_range. cbn.
    now rewrite range_kept.
  - intros info. destruct info.
    unfold mapColorInformationToOriginal, ColorInformation.with_range. cbn.
    now rewrite range_kept.
  - intros info. destruct info.
    unfold mapSymbolInformationToOriginal, SymbolInformation.with_location. cbn.
    now rewrite location_kept.
Qed.

Lemma list_shapes_kept :
  (forall presentation, mapColorPresentationToOriginal fragment presentation = presentation)
  /\ (forall def, mapLocationLinkToOriginal fragment def = def)
  /\ (forall edit, mapTextDocumentEditToOriginal fragment edit = edit).
Proof.
  repeat apply conj.
  - intros [label [primary|] [additional|]]; unfold mapColorPresentationToOriginal; cbn;
      rewrite ?text_edit_kept, ?text_edits_kept; reflexivity.
  - intros [uri target selection origin]. unfold mapLocationLinkToOriginal. cbn.
    rewrite !range_kept.
    destruct (String.eqb (getURL fragment) uri), origin as [r|];
      rewrite ?range_kept; reflexivity.
  - intros [document edits]. unfold mapTextDocumentEditToOriginal. cbn.
    destruct (negb _); [reflexivity|].
    now rewrite text_edits_kept.
Qed.
End PositionPreserving.

(** X1. Through an [IdentityMapper], ranges (in both directions), text
    edits, locations, completion items, hovers, diagnostics (in both
    directions), color informations and symbol informations all come back
    equal to the input. *)
Theorem identity_mapper_keeps_simple_shapes (url : string) :
  let identity := IdentityMapper.new url in
  (forall range, mapRangeToOriginal identity range = range)
  /\ (forall range, mapRangeToGenerated identity range = range)
  /\ (forall edit, mapTextEditToOriginal identity edit = edit)
  /\ (forall loc, mapLocationToOriginal identity loc = loc)
  /\ (forall item, mapCompletionItemToOriginal identity item = item)
  /\ (forall hover, mapHoverToParent identity hover = hover)
  /\ (forall d, mapDiagnosticToOriginal identity d = d)
  /\ (forall d, mapDiagnosticToGenerated identity d = d)
  /\ (forall info, mapColorInformationToOriginal identity info = info)
  /\ (forall info, mapSymbolInformationToOriginal identity info = info).
Proof.
  intros identity.
  assert (Hkept : forall p, getOriginalPosition identity p = p) by reflexivity.
  destruct (simple_shapes_kept identity Hkept) as [Hitem [Hhover [Hd [Hcolor Hsymbol]]]].
  split; [apply (range_kept identity Hkept)|].
  split; [intros [s e]; reflexivity|].
  split; [apply (text_edit_kept identity Hkept)|].
  split; [apply (location_kept identity Hkept)|].
  split; [exact Hitem|].
  split; [exact Hhover|].
  split; [exact Hd|].
  split; [intros d; destruct d as [[s e] ? ? ? ? ? ? ?]; reflexivity|].
  split; [exact Hcolor | exact Hsymbol].
Qed.

(** X2. Through an [IdentityMapper], color presentations, location links
    and text-document edits come back equal to the input, whatever their
    URIs and however many edits they hold. *)
Theorem identity_mapper_keeps_list_shapes (url : string) :
  let identity := IdentityMapper.new url in
  (forall presentation, mapColorPresentationToOriginal identity presentation = presentation)
  /\ (forall def, mapLocationLinkToOriginal identity def = def)
  /\ (forall edit, mapTextDocumentEditToOriginal identity edit = edit).
Proof.
  intros identity. apply list_shapes_kept. reflexivity.
Qed.

(** ** Dependence on the mapper *)

Section SameOriginalPositions.
Variables first second : DocumentMapper.
Hypothesis same_original :
  forall p, getOriginalPosition first p = getOriginalPosition second p.

Lemma same_range (range : Range.t) :
  mapRangeToOriginal first range = mapRangeToOriginal second range.
Proof. unfold mapRangeToOriginal. now rewrite !same_original. Qed.

Lemma same_text_edit (edit : TextEdit.t) :
  mapTextEditToOriginal first edit = mapTextEditToOriginal second edit.
Proof. unfold mapTextEditToOriginal. now rewrite same_range. Qed.

Lemma same_text_edits (edits : list TextEdit.t) :
  map (fun edit => mapTextEditToOriginal first edit) edits
  = map (fun edit => mapTextEditToOriginal second edit) edits.
Proof. apply map_ext. exact same_text_edit. Qed.
End SameOriginalPositions.

(** X3. The remapping functions that ask only for [getOriginalPosition]
    (range, text edit, location, completion item, hover, diagnostic, color
    information, color presentation, symbol information) give the same
    result for two mappers that agree on [getOriginalPosition], whatever
    their other methods and URLs. *)
Theorem remapping_uses_getOriginalPosition_only (first second : DocumentMapper) :
  (forall p, getOriginalPosition first p = getOriginalPosition second p) ->
  (forall range, mapRangeToOriginal first range = mapRangeToOriginal second range)
  /\ (forall edit, mapTextEditToOriginal first edit = mapTextEditToOriginal second edit)
  /\ (forall loc, mapLocationToOriginal first loc = mapLocationToOriginal second loc)
  /\ (forall item,
        mapCompletionItemToOriginal first item = mapCompletionItemToOriginal second item)
  /\ (forall hover, mapHoverToParent first hover = mapHoverToParent second hover)
  /\ (forall d, mapDiagnosticToOriginal first d = mapDiagnosticToOriginal second d)
  /\ (forall info,
        mapColorInformationToOriginal first info = mapColorInformationToOriginal second info)
  /\ (forall presentation,
        mapColorPresentationToOriginal first presentation
        = mapColorPresentationToOriginal second presentation)
  /\ (forall info,
        mapSymbolInformationToOriginal first info = mapSymbolInformationToOriginal second info).
Proof.
  intros Hsame.
  pose proof (same_range first second Hsame) as Hrange.
  pose proof (same_text_edit first second Hsame) as Hedit.
  pose proof (same_text_edits first second Hsame) as Hedits.
  repeat apply conj; try assumption.
  - intros loc. unfold mapLocationToOriginal. now rewrite Hrange.
  - intros item. unfold mapCompletionItemToOriginal.
    destruct (CompletionItem.textEdit item); [now rewrite Hedit | reflexivity].
  - intros hover. unfold mapHoverToParent.
    destruct (Hover.range hover); [now rewrite Hrange | reflexivity].
  - intros d. unfold mapDiagnosticToOriginal. now rewrite Hrange.
  - intros info. unfold mapColorInformationToOriginal. now rewrite Hrange.
  - intros [label [primary|] [additional|]]; unfold mapColorPresentationToOriginal; cbn;
      rewrite ?Hedit, ?Hedits; reflexivity.
  - intros info. unfold mapSymbolInformationToOriginal, mapLocationToOriginal.
    now rewrite Hrange.
Qed.

Lemma remapping_uses_getOriginalPosition_only_witness :
  mapDiagnosticToOriginal (IdentityMapper.new "a.txt") (sample_diagnostic in_fragment)
  = mapDiagnosticToOriginal (IdentityMapper.new "b.txt") (sample_diagnostic in_fragment).
Proof.
  assert (Hsame : forall p,
             getOriginalPosition (IdentityMapper.new "a.txt") p
             = getOriginalPosition (IdentityMapper.new "b.txt") p)
    by (intros p; reflexivity).
  destruct (remapping_uses_getOriginalPosition_only
              (IdentityMapper.new "a.txt") (IdentityMapper.new "b.txt") Hsame)
    as [_ [_ [_ [_ [_ [Hdiagnostic _]]]]]].
  apply Hdiagnostic.
Defined.

(** ** Fragment mapper, from the parent's side *)

Section FragmentFromParent.
Variable offsetAt : Position.t -> string -> Z.
Variable positionAt : Z -> string -> Position.t.
Variable originalText : string.
Variable tagInfo : TagInformation.t.
Variable url : string.

Let mapper : DocumentMapper :=
  FragmentMapper.new offsetAt positionAt originalText tagInfo url.
Let content : string := TagInformation.content tagInfo.
Let fragment_start : Z := TagInformation.start tagInfo.
Let fragment_end : Z := TagInformation.end_ tagInfo.

Lemma isInGenerated_bounds (q : Position.t) :
  isInGenerated mapper q = true ->
  fragment_start <= offsetAt q originalText <= fragment_end.
Proof.
  cbn. unfold FragmentMapper.isInGenerated.
  rewrite andb_true_iff, Z.geb_le, Z.leb_le. tauto.
Qed.

(** X4. Back then forward.  Let [offsetAt] undo [positionAt] on every
    valid offset of the fragment text, let the fragment text be at least
    [end - start] long, and let [q] be an original position inside the
    generated span ([isInGenerated q]) that [positionAt] gives back from
    its own offset in the parent.  Then
    [getOriginalPosition (getGeneratedPosition q) = q]. *)
Theorem fragment_reverse_round_trip (q : Position.t) :
  (forall o, 0 <= o <= text_length content ->
             offsetAt (positionAt o content) content = o) ->
  positionAt (offsetAt q originalText) originalText = q ->
  fragment_end - fragment_start <= text_length content ->
  isInGenerated mapper q = true ->
  getOriginalPosition mapper (getGeneratedPosition mapper q) = q.
Proof.
  intros Hfragment Hq Hlong Hinside.
  apply isInGenerated_bounds in Hinside.
  cbn. unfold FragmentMapper.getOriginalPosition, FragmentMapper.getGeneratedPosition,
    FragmentMapper.offsetInParent.
  fold content fragment_start.
  rewrite Hfragment by lia.
  replace (fragment_start + (offsetAt q originalText - fragment_start))
    with (offsetAt q originalText) by lia.
  exact Hq.
Qed.

(** X5. A position mapped out of the fragment is inside the generated
    span.  Let [offsetAt] undo [positionAt] on every valid offset of the
    parent text and let the fragment's interval lie inside the parent
    ([0 <= start], [end <= length]).  Then for every generated position [p]
    whose fragment-local offset is between 0 and [end - start],
    [isInGenerated (getOriginalPosition p)] is true. *)
Theorem fragment_original_position_is_in_generated (p : Position.t) :
  (forall o, 0 <= o <= text_length originalText ->
             offsetAt (positionAt o originalText) originalText = o) ->
  0 <= fragment_start ->
  fragment_end <= text_length originalText ->
  0 <= offsetAt p content <= fragment_end - fragment_start ->
  isInGenerated mapper (getOriginalPosition mapper p) = true.
Proof.
  intros Hparent Hstart Hend Hp.
  cbn. unfold FragmentMapper.isInGenerated, FragmentMapper.getOriginalPosition,
    FragmentMapper.offsetInParent.
  fold content fragment_start fragment_end.
  rewrite Hparent by lia.
  rewrite andb_true_iff, Z.geb_le, Z.leb_le. lia.
Qed.
End FragmentFromParent.

Lemma fragment_reverse_round_trip_witness :
  getOriginalPosition scenario_mapper
    (getGeneratedPosition scenario_mapper (Position.create 1 5))
  = Position.create 1 5.
Proof.
  apply (fragment_reverse_round_trip TextUtils.offsetAt TextUtils.positionAt
           scenario_parent scenario_tag scenario_url (Position.create 1 5)).
  - intros o Ho. apply Z.eqb_eq.
    apply (offsets_upto (String.length (TagInformation.content scenario_tag))
             (fun o => TextUtils.offsetAt
                         (TextUtils.positionAt o (TagInformation.content scenario_tag))
                         (TagInformation.content scenario_tag) =? o));
      [vm_compute; reflexivity | exact Ho].
  - reflexivity.
  - vm_compute. discriminate.
  - reflexivity.
Defined.

Lemma fragment_original_position_is_in_generated_witness :
  isInGenerated scenario_mapper
    (getOriginalPosition scenario_mapper (Position.create 0 13)) = true.
Proof.
  apply (fragment_original_position_is_in_generated TextUtils.offsetAt TextUtils.positionAt
           scenario_parent scenario_tag scenario_url (Position.create 0 13)).
  - intros o Ho. apply Z.eqb_eq.
    apply (offsets_upto (String.length scenario_parent)
             (fun o => TextUtils.offsetAt (TextUtils.positionAt o scenario_parent)
                         scenario_parent =? o));
      [vm_compute; reflexivity | exact Ho].
  - cbn. lia.
  - vm_compute. discriminate.
  - vm_compute. split; discriminate.
Defined.

(** ** Source-map mapper: which answers count as mapped *)

Lemma mapped_line_sign (answer : option MappedPosition.t) :
  0 <= match answer with
       | Some m => or_zero (MappedPosition.line m) - 1
       | None => -1
       end
  <-> answered_line answer.
Proof.
  unfold answered_line. destruct answer as [m|].
  - rewrite or_zero_value. destruct (MappedPosition.line m) as [l|] eqn:Hline.
    + split.
      * intros Hl. exists m, l. repeat split; [assumption | lia].
      * intros (m' & l' & Hm & Hl & Hpos). injection Hm as <-.
        rewrite Hline in Hl. injection Hl as <-. lia.
    + split; [lia|].
      intros (m' & l' & Hm & Hl & _). injection Hm as <-.
      rewrite Hline in Hl. discriminate.
  - split; [lia|]. intros (m' & l' & Hm & _). discriminate.
Qed.

Section SourceMapAnswers.
Variable consumer : SourceMapConsumer.
Variable sourceUri : string.

Let mapper : DocumentMapper := SourceMapDocumentMapper.new sourceUri consumer.

Lemma getOriginalPosition_line (p : Position.t) :
  Position.line (getOriginalPosition mapper p)
  = match originalPositionFor consumer (original_query p) with
    | Some m => or_zero (MappedPosition.line m) - 1
    | None => -1
    end.
Proof.
  destruct (originalPositionFor consumer (original_query p)) as [m|] eqn:Hanswer.
  - subst mapper. now rewrite (getOriginalPosition_mapped _ _ _ _ Hanswer).
  - subst mapper. now rewrite (getOriginalPosition_null _ _ _ Hanswer).
Qed.

Lemma getGeneratedPosition_line (p : Position.t) :
  Position.line (getGeneratedPosition mapper p)
  = match generatedPositionFor consumer (generated_query sourceUri p) with
    | Some m => or_zero (MappedPosition.line m) - 1
    | None => -1
    end.
Proof.
  destruct (generatedPositionFor consumer (generated_query sourceUri p)) as [m|] eqn:Hanswer.
  - subst mapper. now rewrite (getGeneratedPosition_mapped _ _ _ _ Hanswer).
  - subst mapper. now rewrite (getGeneratedPosition_null _ _ _ Hanswer).
Qed.

(** X6. [getOriginalPosition] returns a non-negative line exactly when the
    consumer answered an object whose line is 1 or more; a missing answer,
    a [null] line, line 0 and negative lines all give a negative line. *)
Theorem sourcemap_original_line_nonnegative_iff (p : Position.t) :
  0 <= Position.line (getOriginalPosition mapper p)
  <-> answered_line (originalPositionFor consumer (original_query p)).
Proof. rewrite getOriginalPosition_line. apply mapped_line_sign. Qed.

(** X7. [isInGenerated] is true exactly when [generatedPositionFor]
    answered an object whose line is 1 or more. *)
Theorem sourcemap_isInGenerated_iff (p : Position.t) :
  isInGenerated mapper p = true
  <-> answered_line (generatedPositionFor consumer (generated_query sourceUri p)).
Proof.
  pose proof (isInGenerated_from_generated consumer sourceUri p) as Hsign.
  fold mapper in Hsign.
  rewrite Hsign, Z.geb_le, getGeneratedPosition_line. apply mapped_line_sign.
Qed.

(** X8. [isInGenerated] asks the consumer exactly what
    [getGeneratedPosition] asks: one [generatedPositionFor] query with line
    [line + 1], the character as column and the source URI; it never asks
    [originalPositionFor] and never logs. *)
Theorem sourcemap_isInGenerated_effects (p : Position.t) :
  effects consumer (SourceMapDocumentMapper.isInGenerated_body sourceUri p)
  = [GeneratedPositionFor (generated_query sourceUri p)]
  /\ effects consumer (SourceMapDocumentMapper.isInGenerated_body sourceUri p)
     = effects consumer (SourceMapDocumentMapper.getGeneratedPosition_body sourceUri p).
Proof.
  unfold effects. cbn. fold (generated_query sourceUri p).
  destruct (generatedPositionFor consumer (generated_query sourceUri p)) as [m|];
    cbn; [|split; reflexivity].
  destruct (or_zero (MappedPosition.line m) - 1 <? 0); cbn; split; reflexivity.
Qed.

(** X9. An answer whose line is [null] is handled like line 0, minus the
    log: both directions return line [-1] with the answer's column (0 when
    null) as character, [isInGenerated] is false, and
    [getOriginalPosition] makes its one query and nothing else. *)
Theorem sourcemap_null_line (p : Position.t) :
  (forall m, originalPositionFor consumer (original_query p) = Some m ->
             MappedPosition.line m = None ->
             getOriginalPosition mapper p = Position.create (-1) (column_or_zero m)
             /\ effects consumer (SourceMapDocumentMapper.getOriginalPosition_body p)
                = [OriginalPositionFor (original_query p)])
  /\ (forall m, generatedPositionFor consumer (generated_query sourceUri p) = Some m ->
                MappedPosition.line m = None ->
                getGeneratedPosition mapper p = Position.create (-1) (column_or_zero m)
                /\ isInGenerated mapper p = false).
Proof.
  split; intros m Hm Hline.
  - split.
    + subst mapper. rewrite (getOriginalPosition_mapped _ _ _ _ Hm), Hline. reflexivity.
    + unfold effects. cbn. fold (original_query p). rewrite Hm, Hline. reflexivity.
  - subst mapper.
    rewrite isInGenerated_from_generated, (getGeneratedPosition_mapped _ _ _ _ Hm), Hline.
    split; reflexivity.
Qed.

(** X10. The mapper's round trip is the consumer's.  If the consumer maps
    the query for [p] to line [l] and column [c], and maps line [l],
    column [c] of the mapper's source back to the query for [p], then
    [getGeneratedPosition (getOriginalPosition p) = p]: the decrement on
    the way out and the increment on the way in cancel. *)
Theorem sourcemap_round_trip (p : Position.t) (there back : MappedPosition.t) (l : Z) :
  originalPositionFor consumer (original_query p) = Some there ->
  MappedPosition.line there = Some l ->
  generatedPositionFor consumer
    {| SourceFindPosition.line := l;
       SourceFindPosition.column := column_or_zero there;
       SourceFindPosition.source := sourceUri |} = Some back ->
  MappedPosition.line back = Some (Position.line p + 1) ->
  MappedPosition.column back = Some (Position.character p) ->
  getGeneratedPosition mapper (getOriginalPosition mapper p) = p.
Proof.
  intros Hthere Hline Hback Hbackline Hbackcolumn. subst mapper.
  rewrite (getOriginalPosition_mapped _ _ _ _ Hthere), Hline, or_zero_value.
  assert (Hquery : generated_query sourceUri (Position.create (l - 1) (column_or_zero there))
                   = {| SourceFindPosition.line := l;
                        SourceFindPosition.column := column_or_zero there;
                        SourceFindPosition.source := sourceUri |}).
  { unfold generated_query. cbn. f_equal. lia. }
  rewrite <- Hquery in Hback.
  rewrite (getGeneratedPosition_mapped _ _ _ _ Hback), Hbackline, or_zero_value.
  unfold column_or_zero. rewrite Hbackcolumn.
  destruct p as [pl pc]. cbn. f_equal. lia.
Qed.

(** X15. A diagnostic whose range ends both get no answer from the consumer
    comes back with the range from [(-1, -1)] to [(-1, -1)] and every other
    field kept. *)
Theorem sourcemap_unmapped_diagnostic (d : Diagnostic.t) :
  originalPositionFor consumer (original_query (Range.start (Diagnostic.range d))) = None ->
  originalPositionFor consumer (original_query (Range.end_ (Diagnostic.range d))) = None ->
  mapDiagnosticToOriginal mapper d
  = {| Diagnostic.range := Range.create sentinel sentinel;
       Diagnostic.severity := Diagnostic.severity d;
       Diagnostic.code := Diagnostic.code d;
       Diagnostic.source := Diagnostic.source d;
       Diagnostic.message := Diagnostic.message d;
       Diagnostic.tags := Diagnostic.tags d;
       Diagnostic.relatedInformation := Diagnostic.relatedInformation d;
       Diagnostic.data := Diagnostic.data d |}.
Proof.
  intros Hstart Hend.
  unfold mapDiagnosticToOriginal, Diagnostic.with_range, mapRangeToOriginal.
  subst mapper.
  now rewrite (getOriginalPosition_null _ _ _ Hstart), (getOriginalPosition_null _ _ _ Hend).
Qed.
End SourceMapAnswers.

Lemma sourcemap_original_line_nonnegative_iff_witness :
  0 <= Position.line
         (getOriginalPosition (SourceMapDocumentMapper.new "a.txt" (answers_always 4 2))
            (Position.create 0 0))
  /\ ~ answered_line (originalPositionFor answers_null (original_query (Position.create 0 0))).
Proof.
  split.
  - apply (sourcemap_original_line_nonnegative_iff (answers_always 4 2) "a.txt").
    exists {| MappedPosition.line := Some 4; MappedPosition.column := Some 2 |}, 4.
    repeat split. lia.
  - intros Hanswered.
    apply (sourcemap_original_line_nonnegative_iff answers_null "a.txt") in Hanswered.
    cbn in Hanswered. lia.
Defined.

Lemma sourcemap_isInGenerated_iff_witness :
  isInGenerated (SourceMapDocumentMapper.new "a.txt" (answers_always 4 2))
    (Position.create 0 0) = true.
Proof.
  apply (sourcemap_isInGenerated_iff (answers_always 4 2) "a.txt").
  exists {| MappedPosition.line := Some 4; MappedPosition.column := Some 2 |}, 4.
  repeat split. lia.
Defined.

Lemma sourcemap_null_line_witness :
  let p := Position.create 3 4 in
  (getOriginalPosition (SourceMapDocumentMapper.new "a.txt" (answers_null_line 6)) p
   = Position.create (-1) 6
   /\ effects (answers_null_line 6) (SourceMapDocumentMapper.getOriginalPosition_body p)
      = [OriginalPositionFor (original_query p)])
  /\ (getGeneratedPosition (SourceMapDocumentMapper.new "a.txt" (answers_null_line 6)) p
      = Position.create (-1) 6
      /\ isInGenerated (SourceMapDocumentMapper.new "a.txt" (answers_null_line 6)) p = false).
Proof.
  intros p.
  destruct (sourcemap_null_line (answers_null_line 6) "a.txt" p) as [Horiginal Hgenerated].
  split.
  - apply (Horiginal _ eq_refl). reflexivity.
  - apply (Hgenerated _ eq_refl). reflexivity.
Defined.

Lemma sourcemap_round_trip_witness :
  getGeneratedPosition (SourceMapDocumentMapper.new "a.txt" (shifts_lines 10))
    (getOriginalPosition (SourceMapDocumentMapper.new "a.txt" (shifts_lines 10))
       (Position.create 3 4))
  = Position.create 3 4.
Proof.
  apply (sourcemap_round_trip (shifts_lines 10) "a.txt" (Position.create 3 4)
           {| MappedPosition.line := Some 14; MappedPosition.column := Some 4 |}
           {| MappedPosition.line := Some 4; MappedPosition.column := Some 4 |}
           14); reflexivity.
Defined.

Lemma sourcemap_unmapped_diagnostic_witness :
  Diagnostic.range
    (mapDiagnosticToOriginal (SourceMapDocumentMapper.new "a.txt" answers_null)
       (sample_diagnostic in_fragment))
  = Range.create sentinel sentinel.
Proof.
  rewrite (sourcemap_unmapped_diagnostic answers_null "a.txt" (sample_diagnostic in_fragment));
    reflexivity.
Defined.

(** ** Remapping: optional fields that are present *)

(** X11. A completion item with a text edit comes back with that edit's
    range mapped and its text kept; every other field is the input's,
    the additional text edits included: they are not mapped. *)
Theorem completion_item_with_text_edit
    (fragment : DocumentMapper) (item : CompletionItem.t) (textEdit : TextEdit.t) :
  CompletionItem.textEdit item = Some textEdit ->
  let item' := mapCompletionItemToOriginal fragment item in
  CompletionItem.textEdit item' = Some (edit_with_mapped_range fragment textEdit)
  /\ CompletionItem.additionalTextEdits item' = CompletionItem.additionalTextEdits item
  /\ CompletionItem.label item' = CompletionItem.label item
  /\ CompletionItem.kind item' = CompletionItem.kind item
  /\ CompletionItem.detail item' = CompletionItem.detail item
  /\ CompletionItem.documentation item' = CompletionItem.documentation item
  /\ CompletionItem.sortText item' = CompletionItem.sortText item
  /\ CompletionItem.filterText item' = CompletionItem.filterText item
  /\ CompletionItem.insertText item' = CompletionItem.insertText item
  /\ CompletionItem.commitCharacters item' = CompletionItem.commitCharacters item
  /\ CompletionItem.command item' = CompletionItem.command item
  /\ CompletionItem.data item' = CompletionItem.data item.
Proof.
  intros Hedit. unfold mapCompletionItemToOriginal. rewrite Hedit. cbn.
  repeat split.
Qed.

Lemma completion_item_with_text_edit_witness :
  let item' := mapCompletionItemToOriginal scenario_mapper completion_item_with_edit in
  CompletionItem.textEdit item' = Some (TextEdit.mk in_parent "onMount")
  /\ CompletionItem.additionalTextEdits item' = Some [TextEdit.mk in_fragment "import"].
Proof.
  destruct (completion_item_with_text_edit scenario_mapper completion_item_with_edit
              (TextEdit.mk in_fragment "onMount") eq_refl)
    as [Hedit [Hadditional _]].
  split; [exact Hedit | exact Hadditional].
Defined.

(** A hover with a range comes back with both ends of the range
    mapped through [getOriginalPosition] and its contents kept. *)
Theorem hover_with_range_remapping
    (fragment : DocumentMapper) (hover : Hover.t) (range : Range.t) :
  Hover.range hover = Some range ->
  mapHoverToParent fragment hover
  = {| Hover.contents := Hover.contents hover;
       Hover.range :=
         Some (Range.create (getOriginalPosition fragment (Range.start range))
                            (getOriginalPosition fragment (Range.end_ range))) |}.
Proof.
  intros Hrange. unfold mapHoverToParent. now rewrite Hrange.
Qed.

Lemma hover_with_range_remapping_witness :
  mapHoverToParent scenario_mapper hover_with_range
  = {| Hover.contents := "let count: number"%string; Hover.range := Some in_parent |}.
Proof.
  apply (hover_with_range_remapping scenario_mapper hover_with_range in_fragment).
  reflexivity.
Defined.

(** ** Remapping: there and back *)

(** X12. A diagnostic sent to the generated side and brought back is the
    diagnostic itself, provided the mapper brings both ends of its range
    back: [getOriginalPosition (getGeneratedPosition p) = p] at the start
    and at the end.  The same holds for a bare range. *)
Theorem diagnostic_generated_then_original
    (fragment : DocumentMapper) (d : Diagnostic.t) :
  getOriginalPosition fragment (getGeneratedPosition fragment (Range.start (Diagnostic.range d)))
  = Range.start (Diagnostic.range d) ->
  getOriginalPosition fragment (getGeneratedPosition fragment (Range.end_ (Diagnostic.range d)))
  = Range.end_ (Diagnostic.range d) ->
  mapRangeToOriginal fragment (mapRangeToGenerated fragment (Diagnostic.range d))
  = Diagnostic.range d
  /\ mapDiagnosticToOriginal fragment (mapDiagnosticToGenerated fragment d) = d.
Proof.
  intros Hstart Hend.
  assert (Hrange : mapRangeToOriginal fragment (mapRangeToGenerated fragment (Diagnostic.range d))
                   = Diagnostic.range d).
  { unfold mapRangeToOriginal, mapRangeToGenerated. cbn.
    rewrite Hstart, Hend. now destruct (Diagnostic.range d). }
  split; [exact Hrange|].
  unfold mapDiagnosticToOriginal, mapDiagnosticToGenerated, Diagnostic.with_range. cbn.
  rewrite Hrange. now destruct d.
Qed.

Lemma diagnostic_generated_then_original_witness :
  mapDiagnosticToGenerated scenario_mapper (sample_diagnostic in_parent)
  = sample_diagnostic in_fragment
  /\ mapDiagnosticToOriginal scenario_mapper
       (mapDiagnosticToGenerated scenario_mapper (sample_diagnostic in_parent))
     = sample_diagnostic in_parent.
Proof.
  split; [reflexivity|].
  apply (diagnostic_generated_then_original scenario_mapper (sample_diagnostic in_parent));
    reflexivity.
Defined.

(** ** Remapping: what a text-document edit keeps, when a code action throws *)

(** X14. Whatever the URIs, a remapped text-document edit has the input's
    document identifier, as many edits as the input, and the inputs' new
    texts in the same order. *)
Theorem text_document_edit_keeps_texts (fragment : DocumentMapper) (edit : TextDocumentEdit.t) :
  let edit' := mapTextDocumentEditToOriginal fragment edit in
  TextDocumentEdit.textDocument edit' = TextDocumentEdit.textDocument edit
  /\ length (TextDocumentEdit.edits edit') = length (TextDocumentEdit.edits edit)
  /\ map TextEdit.newText (TextDocumentEdit.edits edit')
     = map TextEdit.newText (TextDocumentEdit.edits edit).
Proof.
  unfold mapTextDocumentEditToOriginal.
  destruct (negb _); cbn; [repeat split|].
  split; [reflexivity|]. split; [apply length_map|].
  rewrite map_map. reflexivity.
Qed.

Lemma array_map_throws_iff (fragment : DocumentMapper) (changes : list DocumentChange) :
  array_map_throwing (mapDocumentChangeToOriginal fragment) changes = Throws TypeError
  <-> exists op, In (ChangeResource op) changes.
Proof.
  induction changes as [|change rest IH]; cbn.
  - split; [discriminate | intros [op []]].
  - destruct change as [edit|op]; cbn.
    + destruct (array_map_throwing (mapDocumentChangeToOriginal fragment) rest)
        as [mapped|[]]; cbn.
      * split; [discriminate|].
        intros [op [Hhead|Htail]]; [discriminate|].
        assert (Hthrows : @Returns (list TextDocumentEdit.t) mapped = Throws TypeError)
          by (apply IH; now exists op).
        discriminate Hthrows.
      * split; [|reflexivity].
        intros _. destruct IH as [[op Hin] _]; [reflexivity|].
        exists op. now right.
    + split; [|reflexivity].
      intros _. exists op. now left.
Qed.

(** X13. [mapCodeActionToOriginal] throws a [TypeError] exactly when the
    code action has no edit, or its edit has no [documentChanges], or the
    [documentChanges] hold a resource operation (create, rename or delete
    file) anywhere in the list; in every other case it returns. *)
Theorem code_action_throws_iff (fragment : DocumentMapper) (codeAction : CodeAction.t) :
  (mapCodeActionToOriginal fragment codeAction = Throws TypeError
   <-> CodeAction.edit codeAction = None
       \/ exists edit,
            CodeAction.edit codeAction = Some edit
            /\ (WorkspaceEdit.documentChanges edit = None
                \/ exists changes op,
                     WorkspaceEdit.documentChanges edit = Some changes
                     /\ In (ChangeResource op) changes))
  /\ (mapCodeActionToOriginal fragment codeAction <> Throws TypeError ->
      exists mapped, mapCodeActionToOriginal fragment codeAction = Returns mapped).
Proof.
  split.
  - unfold mapCodeActionToOriginal.
    destruct (CodeAction.edit codeAction) as [edit|].
    2: { split; [now left | reflexivity]. }
    destruct (WorkspaceEdit.documentChanges edit) as [changes|] eqn:Hchanges.
    2: { split; [|reflexivity]. intros _. right. exists edit. split; [reflexivity | now left]. }
    pose proof (array_map_throws_iff fragment changes) as Hthrows.
    destruct (array_map_throwing (mapDocumentChangeToOriginal fragment) changes)
      as [mapped|[]]; cbn.
    + split; [discriminate|].
      intros [Hnone | (edit' & Hedit & [Hnone | (changes' & op & Hchanges' & Hin)])];
        try discriminate.
      * injection Hedit as <-. rewrite Hchanges in Hnone. discriminate.
      * injection Hedit as <-. rewrite Hchanges in Hchanges'. injection Hchanges' as <-.
        assert (Hbad : @Returns (list TextDocumentEdit.t) mapped = Throws TypeError)
          by (apply Hthrows; now exists op).
        discriminate Hbad.
    + split; [|reflexivity].
      intros _. destruct Hthrows as [[op Hin] _]; [reflexivity|].
      right. exists edit. split; [reflexivity|]. right. now exists changes, op.
  - intros Hreturns.
    destruct (mapCodeActionToOriginal fragment codeAction) as [mapped|[]].
    + now exists mapped.
    + contradiction.
Qed.

Lemma code_action_throws_iff_witness :
  mapCodeActionToOriginal scenario_mapper code_action_creating_file = Throws TypeError
  /\ exists mapped, mapCodeActionToOriginal scenario_mapper sample_code_action = Returns mapped.
Proof.
  destruct (code_action_throws_iff scenario_mapper code_action_creating_file) as [Hthrows _].
  destruct (code_action_throws_iff scenario_mapper sample_code_action) as [_ Hreturns].
  split.
  - apply Hthrows. right. eexists. split; [reflexivity|].
    right. exists [ChangeTextDocument owned_edit; ChangeResource (CreateFile "c.txt")],
      (CreateFile "c.txt").
    split; [reflexivity|]. right. left. reflexivity.
  - apply Hreturns. discriminate.
Defined.
